(** * gorouter: the fast reverse proxy (proxy/fastreverseproxy.go)

  A shallow embedding of [FastReverseProxy.ServeHTTP] and of its helpers,
  and the properties of the request dispatcher, the retry loop, the
  route-service gateway, the sticky-session resolver and the header copy.

  Conventions.
  - A Go [http.Header] is a finite map from canonical keys to value
    lists; [Get], [Set], [Add] and [Del] canonicalise their key as
    net/textproto does.
  - [ServeHTTP] mutates the inbound request in place: [backendReq := req]
    (line 102) is an alias, not a copy.  The embedding therefore threads
    ONE request value through the function.
  - Calls into collaborators (registry, iterator hooks, reporter, failure
    responder, transport, response writer, continuation) are recorded, in
    order, in an event log kept in the state.
  - The writer is a [ProxyResponseWriter] whose context holds the
    access-log record: the type assertions of lines 84 and 89 panic
    otherwise, before anything else happens.
  - Not modelled: the pooled handler context and the request body closer
    (lines 91-100), which no property here reads; the printing of lines 87
    and 245; the flush loop of [copyResponse] (lines 324-379), which runs
    concurrently with the copy. *)

From Stdlib Require Import ZArith Ascii String List Bool Lia.
From stdpp Require Import base option list strings gmap fin_maps.

#[local] Set Warnings "-clear-no-such-hyp".

Local Open Scope string_scope.
Local Open Scope list_scope.
Local Open Scope Z_scope.

(** ** Strings as the Go standard library treats them *)

Module GoStrings.

Definition between (lo hi : nat) (c : ascii) : bool :=
  (Nat.leb lo (nat_of_ascii c) && Nat.leb (nat_of_ascii c) hi)%bool.

Definition isLower : ascii -> bool := between 97 122.
Definition isUpper : ascii -> bool := between 65 90.

Definition lowerByte (c : ascii) : ascii :=
  if isUpper c then ascii_of_nat (nat_of_ascii c + 32) else c.
Definition upperByte (c : ascii) : ascii :=
  if isLower c then ascii_of_nat (nat_of_ascii c - 32) else c.

(** strings.ToLower, on the ASCII range. *)
Fixpoint ToLower (s : string) : string :=
  match s with
  | EmptyString => EmptyString
  | String c s' => String (lowerByte c) (ToLower s')
  end.

(** strings.HasPrefix *)
Fixpoint HasPrefix (s p : string) : bool :=
  match p, s with
  | EmptyString, _ => true
  | String _ _, EmptyString => false
  | String a p', String b s' => (Ascii.eqb a b && HasPrefix s' p')%bool
  end.

(** strings.Contains *)
Fixpoint Contains (s substr : string) : bool :=
  (HasPrefix s substr ||
   match s with
   | EmptyString => false
   | String _ s' => Contains s' substr
   end)%bool.

(** strings.Join *)
Fixpoint Join (elems : list string) (sep : string) : string :=
  match elems with
  | [] => ""
  | [x] => x
  | x :: rest => x +:+ sep +:+ Join rest sep
  end.

(** [s[0:strings.Index(s, ":")]] when the separator occurs, [s] otherwise. *)
Fixpoint upTo (sep : ascii) (s : string) : string :=
  match s with
  | EmptyString => EmptyString
  | String c s' => if Ascii.eqb c sep then EmptyString else String c (upTo sep s')
  end.

End GoStrings.

Import GoStrings.

(** ** net/textproto: canonical header keys *)

Module Textproto.

Definition tokenPunct : list ascii :=
  list_ascii_of_string "!#$%&'*+-.^_`|~".

(** validHeaderFieldByte: the RFC 7230 token characters. *)
Definition validHeaderFieldByte (c : ascii) : bool :=
  (isLower c || isUpper c || between 48 57 c
   || existsb (Ascii.eqb c) tokenPunct)%bool.

Fixpoint allValid (s : string) : bool :=
  match s with
  | EmptyString => true
  | String c s' => (validHeaderFieldByte c && allValid s')%bool
  end.

(** The canonicalising pass: upper case at the start and after each dash,
    lower case elsewhere. *)
Fixpoint canonLoop (upper : bool) (s : string) : string :=
  match s with
  | EmptyString => EmptyString
  | String c s' =>
      let c' := if upper then upperByte c else lowerByte c in
      String c' (canonLoop (Ascii.eqb c' "-") s')
  end.

(** textproto.CanonicalMIMEHeaderKey: a key holding a byte that is not a
    token character is returned unchanged. *)
Definition CanonicalMIMEHeaderKey (s : string) : string :=
  if allValid s then canonLoop true s else s.

End Textproto.

Import Textproto.

(** ** net/http: headers *)

Abbreviation Header := (gmap string (list string)).

Definition Header_Get (h : Header) (key : string) : string :=
  match h !! CanonicalMIMEHeaderKey key with
  | Some (v :: _) => v
  | _ => ""
  end.

Definition Header_Set (h : Header) (key value : string) : Header :=
  <[CanonicalMIMEHeaderKey key := [value]]> h.

Definition Header_Add (h : Header) (key value : string) : Header :=
  <[CanonicalMIMEHeaderKey key :=
      default [] (h !! CanonicalMIMEHeaderKey key) ++ [value]]> h.

Definition Header_Del (h : Header) (key : string) : Header :=
  delete (CanonicalMIMEHeaderKey key) h.

(** ** Data model *)

(** route.Endpoint: one backend instance.  [CanonicalAddr] is the result of
  the method of that name (address and port). *)
Record Endpoint := {
  ApplicationId : string;
  PrivateInstanceId : string;
  CanonicalAddr : string
}.

(** The part of [url.URL] the dispatcher reads or writes; [EscapedPath] is
  the result of the method of that name. *)
Record URL := {
  Scheme : string;
  URL_Host : string;
  EscapedPath : string
}.

(** http.Request.  [TLS] is [true] when [req.TLS != nil]. *)
Record Request := {
  ProtoMajor : Z;
  ProtoMinor : Z;
  Header_ : Header;
  Host : string;
  RemoteAddr : string;
  RequestURI : string;
  Url : URL;
  TLS : bool
}.

Definition withHeader (r : Request) (h : Header) : Request :=
  {| ProtoMajor := ProtoMajor r; ProtoMinor := ProtoMinor r; Header_ := h;
     Host := Host r; RemoteAddr := RemoteAddr r; RequestURI := RequestURI r;
     Url := Url r; TLS := TLS r |}.

Definition withRequestURI (r : Request) (u : string) : Request :=
  {| ProtoMajor := ProtoMajor r; ProtoMinor := ProtoMinor r; Header_ := Header_ r;
     Host := Host r; RemoteAddr := RemoteAddr r; RequestURI := u;
     Url := Url r; TLS := TLS r |}.

Definition withURLHost (r : Request) (h : string) : Request :=
  {| ProtoMajor := ProtoMajor r; ProtoMinor := ProtoMinor r; Header_ := Header_ r;
     Host := Host r; RemoteAddr := RemoteAddr r; RequestURI := RequestURI r;
     Url := {| Scheme := Scheme (Url r); URL_Host := h;
               EscapedPath := EscapedPath (Url r) |};
     TLS := TLS r |}.

(** http.Response, as far as the dispatcher looks at it. *)
Record Response := {
  StatusCode : Z;
  Resp_Header : Header;
  Trailer : Header;
  Body : string
}.

Record Cookie := { Name : string; Value : string }.

(** Go errors: the sentinel of the handler package and errors made by the
  collaborators, which the dispatcher only observes through [Error()]. *)
Inductive error :=
| NoEndpointsAvailable
| Err (msg : string).

(** routeservice.RouteServiceRequest: the signed envelope. *)
Record RouteServiceRequest := {
  URLString : string;
  Signature : string;
  Metadata : string;
  ForwardedURL : string
}.

(** routeservice.RouteServiceConfig, through the four methods called. *)
Record RouteServiceConfig := {
  RouteServiceEnabled : bool;
  RouteServiceRecommendHttps : bool;
  ValidateSignature : Header -> string -> option error;
  RouteServiceConfig_Request : string -> string -> RouteServiceRequest + error
}.

(** schema.AccessLogRecord: the two fields written. *)
Record AccessLogRecord := {
  RouteEndpoint : option Endpoint;
  alr_StatusCode : Z
}.

(** ** Interfaces of the collaborators *)

(** route.EndpointIterator: a stateful cursor; [Next] yields [None] when it
  is exhausted. *)
Class EndpointIterator (I : Type) := {
  Next : I -> option Endpoint * I;
  PreRequest : I -> Endpoint -> I;
  PostRequest : I -> Endpoint -> I
}.

(** The network behind [http.Client.Do]: a response or an error.  The
  response that may come with an error is never read by the dispatcher,
  which looks at [backendResp] only after [err == nil]. *)
Class RoundTripper (N : Type) := {
  Do : N -> Request -> (Response + error) * N
}.

(** route.Pool *)
Record Pool (I : Type) := {
Endpoints : string -> string -> I;
  RouteServiceUrl : string
}.
Arguments Endpoints {I} _ _ _.
Arguments RouteServiceUrl {I} _.

(** The fields of [FastReverseProxy] that [ServeHTTP] reads; the registry
  is its [Lookup] method. *)
Record FastReverseProxy (I : Type) := {
  registry : string -> option (Pool I);
  routeServiceConfig : RouteServiceConfig;
  defaultLoadBalance : string;
  forceForwardedProtoHttps : bool;
  traceKey : string;
  ip : string
}.
Arguments registry {I} _ _.
Arguments routeServiceConfig {I} _.
Arguments defaultLoadBalance {I} _.
Arguments forceForwardedProtoHttps {I} _.
Arguments traceKey {I} _.
Arguments ip {I} _.

(** Names of the package and of its imports that the file uses and does not
  declare: header and cookie names, helpers of the proxy package, and the
  two standard-library parsers whose result the dispatcher consumes. *)
Record Package := {
  RouteServiceSignature : string;
  RouteServiceMetadata : string;
  RouteServiceForwardedURL : string;
  CfInstanceIdHeader : string;
  VcapTraceHeader : string;
  StickyCookieKey : string;
  VcapCookieId : string;
  (* the text of handler.NoEndpointsAvailable.Error() *)
  NoEndpointsAvailable_text : string;
  (* setupProxyRequest(req, backendReq, false), source and target being the
     same request *)
  setupProxyRequest : Request -> Request;
  hasBeenToRouteService : string -> string -> bool;
  (* router_http.SetTraceHeaders on the writer's header map *)
  SetTraceHeaders : Header -> string -> string -> Header;
  (* the host of net.SplitHostPort, None when it returns an error *)
  SplitHostPort : string -> option string;
  (* readCookies of net/http on the lines of the Cookie header, with its
     name filter *)
  readCookies : list string -> string -> list Cookie
}.

(** ** Observable events, in the order the dispatcher causes them *)

Inductive Event :=
| EvLookup (uri : string)
| EvEndpoints (loadBalance stickyEndpointId : string)
| EvAfterNext (endpoint : option Endpoint)
| EvCaptureRoutingRequest (endpoint : Endpoint) (req : Request)
| EvPreRequest (endpoint : Endpoint)
| EvDo (req : Request) (result : Response + error)
| EvPostRequest (endpoint : Endpoint)
| EvValidateSignature (forwardedUrl : string)
| EvRouteServiceRequest (routeServiceUrl forwardedUrl : string)
| EvHandleUnsupportedProtocol
| EvHandleMissingRoute
| EvHandleTcpRequest
| EvHandleWebSocketRequest
| EvHandleUnsupportedRouteService
| EvHandleBadSignature (err : error)
| EvHandleRouteServiceFailure (err : error)
| EvHandleBadGateway (err : error) (req : Request)
| EvWrite (body : string)
| EvWriteHeader (status : Z) (header : Header)
| EvFlush
| EvCopyResponse (body : string)
| EvBodyClose
| EvNilDereference
| EvNextHandler (req : Request).

(** The state outside the request: the network, the access-log record held
  by the writer's context, the writer's header map, whether the writer is
  an [http.Flusher], and the event log. *)
Record World (N : Type) := {
  network : N;
  accessLog : AccessLogRecord;
  rwHeader : Header;
  rwFlusher : bool;
  events : list Event
}.
Arguments network {N} _.
Arguments accessLog {N} _.
Arguments rwHeader {N} _.
Arguments rwFlusher {N} _.
Arguments events {N} _.

Section WorldUpdates.
Context {N : Type}.

Definition emit (ev : Event) (w : World N) : World N :=
  {| network := network w; accessLog := accessLog w; rwHeader := rwHeader w;
     rwFlusher := rwFlusher w; events := events w ++ [ev] |}.

Definition emitAll (evs : list Event) (w : World N) : World N :=
  {| network := network w; accessLog := accessLog w; rwHeader := rwHeader w;
     rwFlusher := rwFlusher w; events := events w ++ evs |}.

Definition withNetwork (w : World N) (n : N) : World N :=
  {| network := n; accessLog := accessLog w; rwHeader := rwHeader w;
     rwFlusher := rwFlusher w; events := events w |}.

Definition withAccessLog (w : World N) (a : AccessLogRecord) : World N :=
  {| network := network w; accessLog := a; rwHeader := rwHeader w;
     rwFlusher := rwFlusher w; events := events w |}.

Definition withRwHeader (w : World N) (h : Header) : World N :=
  {| network := network w; accessLog := accessLog w; rwHeader := h;
     rwFlusher := rwFlusher w; events := events w |}.
End WorldUpdates.

(** ** The source, function by function *)

(** HopHeaders, lines 27-37 *)
Definition HopHeaders : list string :=
  [ "Connection"; "Proxy-Connection"; "Keep-Alive"; "Proxy-Authenticate";
    "Proxy-Authorization"; "Te"; "Trailer"; "Transfer-Encoding"; "Upgrade" ].

Definition xForwardedForKey : string := "X-Forwarded-For".

Definition maxRetries : nat := 3.

(** [for _, h := range HopHeaders { header.Del(h) }], lines 104-106 and
  272-274 *)
Definition delHopHeaders (h : Header) : Header := foldl Header_Del h HopHeaders.

(** lines 527-529 *)
Definition isProtocolSupported (request : Request) : bool :=
  (ProtoMajor request =? 1) && ((ProtoMinor request =? 0) || (ProtoMinor request =? 1)).

(** lines 505-515 *)
Definition hostWithoutPort (req : Request) : string := upTo ":" (Host req).

(** Modelled from the spec: [upgradeHeader] is declared elsewhere in the
  proxy package; section 4.6 has the classification read the value of the
  request's Upgrade header and nothing else. *)
Definition upgradeHeader (request : Request) : string :=
  Header_Get (Header_ request) "Upgrade".

(** lines 541-544 *)
Definition isWebSocketUpgrade (request : Request) : bool :=
  String.eqb (ToLower (upgradeHeader request)) "websocket".

(** lines 546-548 *)
Definition isTcpUpgrade (request : Request) : bool :=
  String.eqb (upgradeHeader request) "tcp".

Section Proxy.
Context {I N : Type} `{EndpointIterator I} `{RoundTripper N}.
Variable P : Package.

(** [err.Error()] *)
Definition Error (err : error) : string :=
  match err with
  | NoEndpointsAvailable => NoEndpointsAvailable_text P
  | Err msg => msg
  end.

(** lines 318-321 *)
Definition retryableError (err : error) : bool :=
  Contains (Error err) "dial".

(** [request.Cookie(name)] of net/http: the first cookie of that name,
    [None] for [ErrNoCookie]. *)
Definition Request_Cookie (request : Request) (name : string) : option Cookie :=
  head (readCookies P (default [] (Header_ request !! "Cookie")) name).

(** lines 531-539 *)
Definition getStickySession (request : Request) : string :=
  match Request_Cookie request (StickyCookieKey P) with
  | Some _ =>
      match Request_Cookie request (VcapCookieId P) with
      | Some sticky => Value sticky
      | None => ""
      end
  | None => ""
  end.

(** lines 492-503 *)
Definition setupRequest (request : Request) (endpoint : Endpoint) : Request :=
  let h := Header_Set (Header_ request) "X-CF-ApplicationID" (ApplicationId endpoint) in
  let value := PrivateInstanceId endpoint in
  let value := if String.eqb value "" then CanonicalAddr endpoint else value in
  withHeader request (Header_Set h (CfInstanceIdHeader P) value).

(** The closure [afterNext] of lines 148-153; [req] is the request as it
    is when the hook runs. *)
Definition afterNext (req : Request) (endpoint : option Endpoint)
    (w : World N) : World N :=
  let w := emit (EvAfterNext endpoint) w in
  match endpoint with
  | Some e =>
      let w := withAccessLog w {| RouteEndpoint := Some e;
                                  alr_StatusCode := alr_StatusCode (accessLog w) |} in
      emit (EvCaptureRoutingRequest e req) w
  | None => w
  end.

(** Modelled from the spec: [wrappedIterator.Next] is declared elsewhere
    in the proxy package; section 3 has the decorated iterator advance the
    nested one and then run the after-selection hook. *)
Definition wrappedIterator_Next (req : Request) (iter : I) (w : World N)
    : option Endpoint * I * World N :=
  let '(e, iter) := Next iter in
  (e, iter, afterNext req e w).

(** lines 517-525 *)
Definition selectEndpoint (req : Request) (iter : I) (w : World N)
    : (Endpoint + error) * I * World N :=
  let '(endpoint, iter, w) := wrappedIterator_Next req iter w in
  match endpoint with
  | None => (inr NoEndpointsAvailable, iter, w)
  | Some e => (inl e, iter, w)
  end.

(** *** The retry loop, lines 213-255 *)

(** The variables declared before the loop, the request (mutated by every
    iteration), the iterator and the world. *)
Record LoopState := {
  backendResp : option Response;
  endpoint_ : option Endpoint;
  err_ : option error;
  loopReq : Request;
  iter_ : I;
  world : World N
}.

(** The request of one attempt, lines 222 and 235-240: [backendReq] after
    [setupRequest], [setupProxyRequest] and the two assignments. *)
Definition outbound (backend : bool) (req : Request) (endpoint : Endpoint) : Request :=
  let req := setupRequest req endpoint in
  let req := setupProxyRequest P req in
  let req := withRequestURI req "" in
  if backend then withURLHost req (CanonicalAddr endpoint) else req.

(** The loop variables after [selectEndpoint] failed (lines 217-221) and
    after an attempt (lines 241-243). *)
Definition exhausted (st : LoopState) (err : error) (iter : I) (w : World N) : LoopState :=
  {| backendResp := backendResp st; endpoint_ := None; err_ := Some err;
     loopReq := loopReq st; iter_ := iter; world := w |}.

Definition attempted (req : Request) (endpoint : Endpoint)
    (res : Response + error) (iter : I) (w : World N) : LoopState :=
  {| backendResp := match res with inl resp => Some resp | inr _ => None end;
     endpoint_ := Some endpoint;
     err_ := match res with inl _ => None | inr err => Some err end;
     loopReq := req; iter_ := iter; world := w |}.

(** One pass through the loop body; the boolean is [false] where the
    source leaves the loop with [break]. *)
Definition iteration (backend : bool) (st : LoopState) : LoopState * bool :=
  let '(sel, iter, w) := selectEndpoint (loopReq st) (iter_ st) (world st) in
  match sel with
  | inr err => (exhausted st err iter w, false)
  | inl endpoint =>
      let iter := PreRequest iter endpoint in
      let w := emit (EvPreRequest endpoint) w in
      let req := outbound backend (loopReq st) endpoint in
      let '(res, n) := Do (network w) req in
      let w := emit (EvDo req res) (withNetwork w n) in
      let iter := PostRequest iter endpoint in
      let w := emit (EvPostRequest endpoint) w in
      (attempted req endpoint res iter w,
       match res with
       | inl _ => false
       | inr err => retryableError err
       end)
  end.

(** [for retry := 0; retry < maxRetries; retry++], by the number of
    passes that remain. *)
Fixpoint retryLoop (remaining : nat) (backend : bool) (st : LoopState) : LoopState :=
  match remaining with
  | O => st
  | S remaining' =>
      let '(st', continue) := iteration backend st in
      if continue then retryLoop remaining' backend st' else st'
  end.

(** *** The route-service gateway, lines 166-211 *)

Inductive Gateway :=
| Proceed (backend : bool) (req : Request)
| Rejected.

(** lines 178-186 *)
Definition forwardedUrlRaw (f : FastReverseProxy I) (req : Request) : string :=
  let recommendedScheme :=
    if RouteServiceRecommendHttps (routeServiceConfig f) then "https" else "http" in
  recommendedScheme +:+ "://" +:+ hostWithoutPort req +:+ RequestURI req.

(** lines 195-197 *)
Definition delRouteServiceHeaders (h : Header) : Header :=
  let h := Header_Del h (RouteServiceSignature P) in
  let h := Header_Del h (RouteServiceMetadata P) in
  Header_Del h (RouteServiceForwardedURL P).

(** lines 207-209 *)
Definition setRouteServiceHeaders (h : Header)
    (routeServiceArgs : RouteServiceRequest) : Header :=
  let h := Header_Set h (RouteServiceSignature P) (Signature routeServiceArgs) in
  let h := Header_Set h (RouteServiceMetadata P) (Metadata routeServiceArgs) in
  Header_Set h (RouteServiceForwardedURL P) (ForwardedURL routeServiceArgs).

(** The decision and the calls it causes, in order.  [backend] is the
    variable of line 166: [false] once line 202 ran. *)
Definition routeServiceGateway (f : FastReverseProxy I) (pool : Pool I)
    (req : Request) : Gateway * list Event :=
  let routeServiceUrl := RouteServiceUrl pool in
  let cfg := routeServiceConfig f in
  if negb (String.eqb routeServiceUrl "") && negb (RouteServiceEnabled cfg) then
    (Rejected, [EvHandleUnsupportedRouteService])
  else if negb (String.eqb routeServiceUrl "") then
    let rsSignature := Header_Get (Header_ req) (RouteServiceSignature P) in
    if hasBeenToRouteService P routeServiceUrl rsSignature then
      match ValidateSignature cfg (Header_ req) (forwardedUrlRaw f req) with
      | Some err =>
          (Rejected, [EvValidateSignature (forwardedUrlRaw f req);
                      EvHandleBadSignature err])
      | None =>
          (Proceed true (withHeader req (delRouteServiceHeaders (Header_ req))),
           [EvValidateSignature (forwardedUrlRaw f req)])
      end
    else
      match RouteServiceConfig_Request cfg routeServiceUrl (forwardedUrlRaw f req) with
      | inr err =>
          (Rejected, [EvRouteServiceRequest routeServiceUrl (forwardedUrlRaw f req);
                      EvHandleRouteServiceFailure err])
      | inl routeServiceArgs =>
          (Proceed false
             (withHeader req (setRouteServiceHeaders (Header_ req) routeServiceArgs)),
           [EvRouteServiceRequest routeServiceUrl (forwardedUrlRaw f req)])
      end
  else (Proceed true req, []).

(** *** Relaying the response, lines 263-313 *)

(** [for k, v := range h { rw.Header().Set(k, strings.Join(v, ",")) }],
    lines 277-279, over the entries in the order the range visits them. *)
Definition copyHeader (entries : list (string * list string)) (dst : Header) : Header :=
  foldl (fun acc kv => Header_Set acc kv.1 (Join kv.2 ",")) dst entries.

(** lines 307-311 *)
Definition addTrailers (entries : list (string * list string)) (dst : Header) : Header :=
  foldl (fun acc kv => foldl (fun acc v => Header_Add acc kv.1 v) acc kv.2) dst entries.

(** lines 263-265 *)
Definition recordStatus (backendResp : option Response) (w : World N) : World N :=
  match backendResp with
  | Some resp =>
      withAccessLog w {| RouteEndpoint := RouteEndpoint (accessLog w);
                         alr_StatusCode := StatusCode resp |}
  | None => w
  end.

(** lines 267-269 *)
Definition traceHeaders (f : FastReverseProxy I) (req : Request)
    (endpoint : option Endpoint) (w : World N) : World N :=
  match endpoint with
  | Some e =>
      if negb (String.eqb (traceKey f) "")
         && String.eqb (Header_Get (Header_ req) (VcapTraceHeader P)) (traceKey f)
      then withRwHeader w (SetTraceHeaders P (rwHeader w) (ip f) (CanonicalAddr e))
      else w
  | None => w
  end.

(** lines 277-283; [h] is the response header without the hop-by-hop
    keys.  [rw.Header()["Content-Type"] = nil] leaves the key with no
    value. *)
Definition writeHeaders (h : Header) (w : World N) : World N :=
  let w := withRwHeader w (copyHeader (map_to_list h) (rwHeader w)) in
  if String.eqb (Header_Get h "Content-Type") ""
  then withRwHeader w (<["Content-Type" := []]> (rwHeader w))
  else w.

(** lines 285-291 *)
Definition announceTrailers (resp : Response) (w : World N) : World N :=
  if negb (Nat.eqb (size (Trailer resp)) 0)
  then withRwHeader w (Header_Add (rwHeader w) "Trailer"
                         (Join ((map_to_list (Trailer resp)).*1) ", "))
  else w.

(** lines 295-302 *)
Definition flushForTrailers (resp : Response) (w : World N) : World N :=
  if negb (Nat.eqb (size (Trailer resp)) 0) && rwFlusher w then emit EvFlush w else w.

(** lines 304-311; the flush loop of [copyResponse] is not modelled, the
    copy is one event. *)
Definition copyBodyAndTrailers (resp : Response) (w : World N) : World N :=
  let w := emit (EvCopyResponse (Body resp)) w in
  let w := emit EvBodyClose w in
  withRwHeader w (addTrailers (map_to_list (Trailer resp)) (rwHeader w)).

Definition relayResponse (f : FastReverseProxy I) (req : Request)
    (endpoint : option Endpoint) (backendResp : option Response)
    (w : World N) : World N :=
  let w := recordStatus backendResp w in
  let w := traceHeaders f req endpoint w in
  match backendResp with
  | None => emit EvNilDereference w
  | Some resp =>
      let w := writeHeaders (delHopHeaders (Resp_Header resp)) w in
      let w := announceTrailers resp w in
      let w := emit (EvWriteHeader (StatusCode resp) (rwHeader w)) w in
      let w := flushForTrailers resp w in
      let w := copyBodyAndTrailers resp w in
      emit (EvNextHandler req) w
  end.

(** *** The dispatcher, lines 83-315 *)

(** lines 108-119 *)
Definition foldForwardedFor (req : Request) : Request :=
  match SplitHostPort P (RemoteAddr req) with
  | Some clientIP =>
      let prior := Header_Get (Header_ req) xForwardedForKey in
      let clientIPKey :=
        if String.eqb prior "" then clientIP else prior +:+ ", " +:+ clientIP in
      withHeader req (Header_Set (Header_ req) xForwardedForKey clientIPKey)
  | None => req
  end.

(** lines 126-134 *)
Definition setForwardedProto (f : FastReverseProxy I) (req : Request) : Request :=
  if forceForwardedProtoHttps f then
    withHeader req (Header_Set (Header_ req) "X-Forwarded-Proto" "https")
  else if String.eqb (Header_Get (Header_ req) "X-Forwarded-Proto") "" then
    let scheme := if TLS req then "https" else "http" in
    withHeader req (Header_Set (Header_ req) "X-Forwarded-Proto" scheme)
  else req.

(** The request as lines 104-119 leave it. *)
Definition normalized (req : Request) : Request :=
  foldForwardedFor (withHeader req (delHopHeaders (Header_ req))).

(** The request as lines 104-134 leave it, for a supported protocol. *)
Definition prepared (f : FastReverseProxy I) (req : Request) : Request :=
  setForwardedProto f (normalized req).

(** [route.Uri(hostWithoutPort(req) + requestPath)], lines 136-137 *)
Definition routeUri (req : Request) : string :=
  hostWithoutPort req +:+ EscapedPath (Url req).

(** lines 257-313: what follows the loop *)
Definition finish (f : FastReverseProxy I) (st : LoopState) : World N :=
  match err_ st with
  | Some err =>
      let w := emit (EvHandleBadGateway err (loopReq st)) (world st) in
      emit (EvWrite "Exceeded max retries: Timed out connecting to backends.") w
  | None =>
      relayResponse f (loopReq st) (endpoint_ st) (backendResp st) (world st)
  end.

Definition ServeHTTP (f : FastReverseProxy I) (w : World N) (req : Request) : World N :=
  let req := normalized req in
  if negb (isProtocolSupported req) then emit EvHandleUnsupportedProtocol w
  else
    let req := setForwardedProto f req in
    let uri := routeUri req in
    let w := emit (EvLookup uri) w in
    match registry f uri with
    | None => emit EvHandleMissingRoute w
    | Some pool =>
        let stickyEndpointId := getStickySession req in
        let iter := Endpoints pool (defaultLoadBalance f) stickyEndpointId in
        let w := emit (EvEndpoints (defaultLoadBalance f) stickyEndpointId) w in
        if isTcpUpgrade req then emit EvHandleTcpRequest w
        else if isWebSocketUpgrade req then emit EvHandleWebSocketRequest w
        else
          let '(gateway, calls) := routeServiceGateway f pool req in
          let w := emitAll calls w in
          match gateway with
          | Rejected => w
          | Proceed backend req =>
              finish f (retryLoop maxRetries backend
                          {| backendResp := None; endpoint_ := None; err_ := None;
                             loopReq := req; iter_ := iter; world := w |})
          end
    end.

End Proxy.

Arguments LoopState : clear implicits.

(** ** A concrete deployment, for running the model *)

Module Sample.

(** An iterator over a fixed list of endpoints, handed out in order. *)
#[export] Instance list_iterator : EndpointIterator (list Endpoint) := {
  Next l := match l with [] => (None, []) | e :: l' => (Some e, l') end;
  PreRequest l _ := l;
  PostRequest l _ := l
}.

(** A network in which the answer depends on the address dialled. *)
Record StaticNet := { respond : string -> Response + error }.

#[export] Instance static_net : RoundTripper StaticNet := {
  Do n req := (respond n (URL_Host (Url req)), n)
}.

Fixpoint trimLeft (s : string) : string :=
  match s with
  | String " " s' => trimLeft s'
  | _ => s
  end.

Fixpoint splitAt (sep : ascii) (s : string) : list string :=
  match s with
  | EmptyString => [EmptyString]
  | String c s' =>
      if Ascii.eqb c sep then EmptyString :: splitAt sep s'
      else match splitAt sep s' with
           | [] => [String c EmptyString]
           | x :: xs => String c x :: xs
           end
  end.

Fixpoint dropTo (sep : ascii) (s : string) : option string :=
  match s with
  | EmptyString => None
  | String c s' => if Ascii.eqb c sep then Some s' else dropTo sep s'
  end.

(** name=value pairs separated by semicolons *)
Definition parseCookies (lines : list string) (filter : string) : list Cookie :=
  flat_map (fun line =>
    flat_map (fun part =>
      let part := trimLeft part in
      match dropTo "=" part with
      | Some v =>
          let n := upTo "=" part in
          if String.eqb filter "" || String.eqb filter n
          then [{| Name := n; Value := v |}] else []
      | None => []
      end) (splitAt ";" line)) lines.

(** Values for the names the file takes from its package and its imports.
    The helpers are simple stand-ins: [setupProxyRequest] points the URL at
    the inbound Host, a request has been to the route service when it
    carries a signature. *)
Definition pkg : Package := {|
  RouteServiceSignature := "X-CF-Proxy-Signature";
  RouteServiceMetadata := "X-CF-Proxy-Metadata";
  RouteServiceForwardedURL := "X-CF-Forwarded-Url";
  CfInstanceIdHeader := "X-CF-InstanceID";
  VcapTraceHeader := "X-Vcap-Trace";
  StickyCookieKey := "JSESSIONID";
  VcapCookieId := "__VCAP_ID__";
  NoEndpointsAvailable_text := "No endpoints available";
  setupProxyRequest r := withURLHost r (Host r);
  hasBeenToRouteService rsUrl sig :=
    negb (String.eqb sig "") && negb (String.eqb rsUrl "");
  SetTraceHeaders h ip addr :=
    Header_Set (Header_Set h "X-Vcap-Router" ip) "X-Vcap-Backend" addr;
  SplitHostPort addr :=
    match dropTo ":" addr with Some _ => Some (upTo ":" addr) | None => None end;
  readCookies := parseCookies
|}.

Definition E1 : Endpoint :=
  {| ApplicationId := "app-1"; PrivateInstanceId := "i-1"; CanonicalAddr := "10.0.0.1:8080" |}.
Definition E2 : Endpoint :=
  {| ApplicationId := "app-1"; PrivateInstanceId := "i-2"; CanonicalAddr := "10.0.0.2:8080" |}.
Definition E3 : Endpoint :=
  {| ApplicationId := "app-1"; PrivateInstanceId := ""; CanonicalAddr := "10.0.0.3:8080" |}.

Definition ok (body : string) : Response :=
  {| StatusCode := 200;
     Resp_Header := {[ "Content-Type" := ["text/plain"];
                       "Set-Cookie" := ["a=1"; "b=2"];
                       "Keep-Alive" := ["timeout=5"; "max=100"] ]};
     Trailer := ∅; Body := body |}.

Definition dialError : error := Err "dial tcp: connection refused".

(** E1 and E2 refuse the connection, every other address answers. *)
Definition net : StaticNet :=
  {| respond addr :=
       if String.eqb addr "10.0.0.1:8080" then inr dialError
       else if String.eqb addr "10.0.0.2:8080" then inr dialError
       else inl (ok addr) |}.

Definition world0 : World StaticNet :=
  {| network := net;
     accessLog := {| RouteEndpoint := None; alr_StatusCode := 0 |};
     rwHeader := ∅; rwFlusher := true; events := [] |}.

Definition get (headers : list (string * list string)) : Request :=
  {| ProtoMajor := 1; ProtoMinor := 1;
     Header_ := list_to_map headers;
     Host := "app.example.com:80"; RemoteAddr := "192.0.2.7:51234";
     RequestURI := "/index";
     Url := {| Scheme := ""; URL_Host := ""; EscapedPath := "/index" |};
     TLS := false |}.

(** The same request over HTTP/2. *)
Definition http2 (headers : list (string * list string)) : Request :=
  {| ProtoMajor := 2; ProtoMinor := 0;
     Header_ := list_to_map headers;
     Host := "app.example.com:80"; RemoteAddr := "192.0.2.7:51234";
     RequestURI := "/index";
     Url := {| Scheme := ""; URL_Host := ""; EscapedPath := "/index" |};
     TLS := false |}.

Definition pool (endpoints : list Endpoint) (rsUrl : string) : Pool (list Endpoint) :=
  {| Endpoints _ _ := endpoints; RouteServiceUrl := rsUrl |}.

(** A request that comes back from the route service, signed. *)
Definition signed : Request :=
  get [ ("X-Cf-Proxy-Signature", ["sig"]); ("X-Cf-Proxy-Metadata", ["meta"]);
        ("X-Cf-Forwarded-Url", ["https://app.example.com/index"]) ].

(** A request with the two sticky-session cookies. *)
Definition sticky : Request :=
  get [ ("Cookie", ["JSESSIONID=x; __VCAP_ID__=abc123"]) ].

(** A request that asks for a WebSocket. *)
Definition websocket : Request :=
  get [ ("Upgrade", ["WebSocket"]); ("Connection", ["Upgrade"]) ].

Definition envelope (rsUrl : string) : RouteServiceRequest :=
  {| URLString := rsUrl; Signature := "sig"; Metadata := "meta";
     ForwardedURL := "https://app.example.com/index" |}.

Definition config (rsEnabled : bool) (sigOk : bool) (signerOk : bool) : RouteServiceConfig :=
  {| RouteServiceEnabled := rsEnabled;
     RouteServiceRecommendHttps := true;
     ValidateSignature _ _ := if sigOk then None else Some (Err "signature expired");
     RouteServiceConfig_Request rsUrl fwd :=
       if signerOk
       then inl {| URLString := rsUrl; Signature := "sig"; Metadata := "meta";
                   ForwardedURL := fwd |}
       else inr (Err "cannot encrypt") |}.

Definition proxy (endpoints : list Endpoint) (rsUrl : string)
    (cfg : RouteServiceConfig) : FastReverseProxy (list Endpoint) :=
  {| registry uri :=
       if String.eqb uri "app.example.com/index"
       then Some (pool endpoints rsUrl)
       else None;
     routeServiceConfig := cfg;
     defaultLoadBalance := "round-robin";
     forceForwardedProtoHttps := false;
     traceKey := "";
     ip := "192.0.2.1" |}.

(** A fourth endpoint, never reached by a loop of three attempts. *)
Definition E4 : Endpoint :=
  {| ApplicationId := "app-1"; PrivateInstanceId := "i-4"; CanonicalAddr := "10.0.0.4:8080" |}.

Definition resetError : error := Err "read tcp: connection reset by peer".

(** A network in which every address resets the connection after the
    dial, and one in which every address refuses it. *)
Definition netReset : StaticNet := {| respond _ := inr resetError |}.
Definition netDown : StaticNet := {| respond _ := inr dialError |}.

(** A response that declares a trailer. *)
Definition okWithTrailer : Response :=
  {| StatusCode := 200;
     Resp_Header := {[ "Content-Length" := ["2"] ]};
     Trailer := {[ "X-Checksum" := ["abc"] ]};
     Body := "ok" |}.

Definition netTrailer : StaticNet := {| respond _ := inl okWithTrailer |}.

Definition worldOn (n : StaticNet) : World StaticNet :=
  {| network := n;
     accessLog := {| RouteEndpoint := None; alr_StatusCode := 0 |};
     rwHeader := ∅; rwFlusher := true; events := [] |}.

(** A request that already went through another proxy. *)
Definition forwarded : Request :=
  get [ ("X-Forwarded-For", ["198.51.100.4"; "203.0.113.9"]);
        ("X-Forwarded-Proto", ["https"]); ("Te", ["trailers"]);
        ("Accept", ["*/*"]) ].

(** A request for a host that no route is registered for. *)
Definition elsewhere : Request :=
  {| ProtoMajor := 1; ProtoMinor := 1;
     Header_ := ∅;
     Host := "other.example.org:8443"; RemoteAddr := "192.0.2.7:51234";
     RequestURI := "/";
     Url := {| Scheme := ""; URL_Host := ""; EscapedPath := "/" |};
     TLS := true |}.

End Sample.

(** ** Vocabulary of the statements *)

Local Open Scope nat_scope.

Section Emitted.
Context {I N : Type} `{EndpointIterator I} `{RoundTripper N}.
Variable P : Package.

(** The world with [evs] put in front of its event log, and the world with
    an empty log. *)
Definition prepend (evs : list Event) (w : World N) : World N :=
  {| network := network w; accessLog := accessLog w; rwHeader := rwHeader w;
     rwFlusher := rwFlusher w; events := evs ++ events w |}.

Definition clearEvents (w : World N) : World N :=
  {| network := network w; accessLog := accessLog w; rwHeader := rwHeader w;
     rwFlusher := rwFlusher w; events := [] |}.

Definition withWorld (st : LoopState I N) (w : World N) : LoopState I N :=
  {| backendResp := backendResp st; endpoint_ := endpoint_ st; err_ := err_ st;
     loopReq := loopReq st; iter_ := iter_ st; world := w |}.

(** The events one call of [ServeHTTP] adds to the log. *)
Definition emitted (f : FastReverseProxy I) (w : World N) (req : Request) : list Event :=
  events (ServeHTTP P f (clearEvents w) req).

(** The state the retry loop ends in when it starts with an empty log, and
    the events it adds. *)
Definition loopRun (n : nat) (backend : bool) (st : LoopState I N) : LoopState I N :=
  retryLoop P n backend (withWorld st (clearEvents (world st))).

Definition loopEmitted (n : nat) (backend : bool) (st : LoopState I N) : list Event :=
  events (world (loopRun n backend st)).

(** The loop state of line 216: nothing selected, nothing received. *)
Definition loopStart (req : Request) (iter : I) (w : World N) : LoopState I N :=
  {| backendResp := None; endpoint_ := None; err_ := None;
     loopReq := req; iter_ := iter; world := w |}.

(** The header map of the writer when the status line is written: after
    the trace headers, the copy of the response headers and the
    announcement of the trailers. *)
Definition sentHeader (f : FastReverseProxy I) (req : Request)
    (endpoint : option Endpoint) (resp : Response) (w : World N) : Header :=
  rwHeader
    (announceTrailers resp
       (writeHeaders (delHopHeaders (Resp_Header resp))
          (traceHeaders P f req endpoint (recordStatus (Some resp) w)))).

(** The proxy [f] with a registry that resolves every URI to [pool]. *)
Definition servingPool (f : FastReverseProxy I) (pool : Pool I) : FastReverseProxy I :=
  {| registry := fun _ => Some pool;
     routeServiceConfig := routeServiceConfig f;
     defaultLoadBalance := defaultLoadBalance f;
     forceForwardedProtoHttps := forceForwardedProtoHttps f;
     traceKey := traceKey f;
     ip := ip f |}.

(** The canonical keys of the three route-service protocol headers. *)
Definition routeServiceKeys : list string :=
  [ CanonicalMIMEHeaderKey (RouteServiceSignature P);
    CanonicalMIMEHeaderKey (RouteServiceMetadata P);
    CanonicalMIMEHeaderKey (RouteServiceForwardedURL P) ].

(** A request that carries none of the three. *)
Definition withoutRouteServiceHeaders (r : Request) : Prop :=
  forall k, k ∈ routeServiceKeys -> Header_ r !! k = None.

(** The events up to the gateway's decision, [calls] being the gateway's. *)
Definition preamble (f : FastReverseProxy I) (req : Request)
    (calls : list Event) : list Event :=
  [ EvLookup (routeUri req);
    EvEndpoints (defaultLoadBalance f) (getStickySession P req) ] ++ calls.

(** The loop state after an attempt on [e] with outcome [res], the
    iterator having yielded [e] and moved to [it'], the network to [n']. *)
Definition afterAttempt (backend : bool) (st : LoopState I N) (e : Endpoint)
    (it' : I) (res : Response + error) (n' : N) : LoopState I N :=
  attempted (outbound P backend (loopReq st) e) e res
    (PostRequest (PreRequest it' e) e)
    {| network := n';
       accessLog := {| RouteEndpoint := Some e;
                       alr_StatusCode := alr_StatusCode (accessLog (world st)) |};
       rwHeader := rwHeader (world st);
       rwFlusher := rwFlusher (world st);
       events := events (world st) ++
                 [ EvAfterNext (Some e); EvCaptureRoutingRequest e (loopReq st);
                   EvPreRequest e; EvDo (outbound P backend (loopReq st) e) res;
                   EvPostRequest e ] |}.

(** The runs of the loop, as a relation: [LoopRun backend n st evs st']
    when [n] passes remain, the loop is entered in [st], adds [evs] to the
    log and is left in [st']. *)
Inductive LoopRun (backend : bool) :
    nat -> LoopState I N -> list Event -> LoopState I N -> Prop :=
| run_done st :
    LoopRun backend 0 st [] st
| run_exhausted n st it' :
    Next (iter_ st) = (None, it') ->
    LoopRun backend (S n) st [EvAfterNext None]
      (exhausted st NoEndpointsAvailable it' (emit (EvAfterNext None) (world st)))
| run_success n st e it' resp n' :
    Next (iter_ st) = (Some e, it') ->
    Do (network (world st)) (outbound P backend (loopReq st) e) = (inl resp, n') ->
    LoopRun backend (S n) st
      [ EvAfterNext (Some e); EvCaptureRoutingRequest e (loopReq st);
        EvPreRequest e; EvDo (outbound P backend (loopReq st) e) (inl resp);
        EvPostRequest e ]
      (afterAttempt backend st e it' (inl resp) n')
| run_fatal n st e it' err n' :
    Next (iter_ st) = (Some e, it') ->
    Do (network (world st)) (outbound P backend (loopReq st) e) = (inr err, n') ->
    retryableError P err = false ->
    LoopRun backend (S n) st
      [ EvAfterNext (Some e); EvCaptureRoutingRequest e (loopReq st);
        EvPreRequest e; EvDo (outbound P backend (loopReq st) e) (inr err);
        EvPostRequest e ]
      (afterAttempt backend st e it' (inr err) n')
| run_retry n st e it' err n' evs st' :
    Next (iter_ st) = (Some e, it') ->
    Do (network (world st)) (outbound P backend (loopReq st) e) = (inr err, n') ->
    retryableError P err = true ->
    LoopRun backend n (afterAttempt backend st e it' (inr err) n') evs st' ->
    LoopRun backend (S n) st
      ([ EvAfterNext (Some e); EvCaptureRoutingRequest e (loopReq st);
         EvPreRequest e; EvDo (outbound P backend (loopReq st) e) (inr err);
         EvPostRequest e ] ++ evs)
      st'.

End Emitted.

Definition isDo (ev : Event) : bool :=
  match ev with EvDo _ _ => true | _ => false end.
Definition isPreRequest (ev : Event) : bool :=
  match ev with EvPreRequest _ => true | _ => false end.
Definition isPostRequest (ev : Event) : bool :=
  match ev with EvPostRequest _ => true | _ => false end.
Definition isAfterNext (ev : Event) : bool :=
  match ev with EvAfterNext _ => true | _ => false end.
Definition isCaptureRoutingRequest (ev : Event) : bool :=
  match ev with EvCaptureRoutingRequest _ _ => true | _ => false end.
Definition isNextHandler (ev : Event) : bool :=
  match ev with EvNextHandler _ => true | _ => false end.
Definition isCopyResponse (ev : Event) : bool :=
  match ev with EvCopyResponse _ => true | _ => false end.

(** The calls of the failure responder and the two tunnel hand-offs. *)
Definition isResponder (ev : Event) : bool :=
  match ev with
  | EvHandleUnsupportedProtocol | EvHandleMissingRoute | EvHandleTcpRequest
  | EvHandleWebSocketRequest | EvHandleUnsupportedRouteService
  | EvHandleBadSignature _ | EvHandleRouteServiceFailure _
  | EvHandleBadGateway _ _ => true
  | _ => false
  end.

Definition isBadGateway (ev : Event) : bool :=
  match ev with EvHandleBadGateway _ _ => true | _ => false end.

(** The events of the retry loop: the hooks and the transport. *)
Definition isAttemptEvent (ev : Event) : bool :=
  match ev with
  | EvAfterNext _ | EvCaptureRoutingRequest _ _ | EvPreRequest _
  | EvDo _ _ | EvPostRequest _ => true
  | _ => false
  end.

Definition count (p : Event -> bool) (evs : list Event) : nat :=
  length (List.filter p evs).

(** The outcomes of the attempts, in order. *)
Definition attemptResults (evs : list Event) : list (Response + error) :=
  omap (fun ev => match ev with EvDo _ res => Some res | _ => None end) evs.

(** The header maps written with a status line, in order. *)
Definition writtenHeaders (evs : list Event) : list Header :=
  omap (fun ev => match ev with EvWriteHeader _ h => Some h | _ => None end) evs.

(** A header map as the response parser of net/http builds it: every key
    is in canonical form. *)
Definition canonicalKeys (h : Header) : Prop :=
  forall k v, h !! k = Some v -> CanonicalMIMEHeaderKey k = k.

Definition isLookup (ev : Event) : bool :=
  match ev with EvLookup _ => true | _ => false end.
Definition isEndpoints (ev : Event) : bool :=
  match ev with EvEndpoints _ _ => true | _ => false end.
Definition isFlush (ev : Event) : bool :=
  match ev with EvFlush => true | _ => false end.

(** The endpoints the after-selection hook reported, those the pre-attempt
    hook and those the post-attempt hook were called with, in order. *)
Definition selected (evs : list Event) : list Endpoint :=
  omap (fun ev => match ev with EvCaptureRoutingRequest e _ => Some e | _ => None end) evs.
Definition preRequested (evs : list Event) : list Endpoint :=
  omap (fun ev => match ev with EvPreRequest e => Some e | _ => None end) evs.
Definition postRequested (evs : list Event) : list Endpoint :=
  omap (fun ev => match ev with EvPostRequest e => Some e | _ => None end) evs.

(** The bytes of a string. *)
Definition bytes (s : string) : list ascii := list_ascii_of_string s.

(** The events of the dispatcher ahead of the retry loop: the lookup, the
    call for the iterator, the calls of the gateway and the responders that
    end the call there. *)
Definition isDispatchEvent (ev : Event) : bool :=
  match ev with
  | EvLookup _ | EvEndpoints _ _ | EvValidateSignature _ | EvRouteServiceRequest _ _
  | EvHandleUnsupportedProtocol | EvHandleMissingRoute
  | EvHandleUnsupportedRouteService | EvHandleBadSignature _
  | EvHandleRouteServiceFailure _ => true
  | _ => false
  end.

(** The events that follow the loop: the report of the failure or the
    relay of the response. *)
Definition isRelayEvent (ev : Event) : bool :=
  match ev with
  | EvHandleBadGateway _ _ | EvWrite _ | EvWriteHeader _ _ | EvFlush
  | EvCopyResponse _ | EvBodyClose | EvNextHandler _ => true
  | _ => false
  end.

(** The flush of lines 295-302. *)
Definition flushed {N : Type} (resp : Response) (w : World N) : list Event :=
  if negb (Nat.eqb (size (Trailer resp)) 0) && rwFlusher w then [EvFlush] else [].

(** Closes a goal that says that a projection of a list of events is
    empty, that a count over it is zero or that an event is not on it, from
    a hypothesis that every event of the list is of a class that the
    projection ignores. *)
Ltac absent :=
  match goal with
  | Hc : Forall _ ?evs |- _ ∉ ?evs =>
      let Hin := fresh "Hin" in
      intros Hin; apply (proj1 (Forall_forall _ _) Hc) in Hin;
      cbn in Hin; discriminate Hin
  | Hc : Forall _ ?evs |- _ ?evs = _ =>
      let ev := fresh "ev" in
      let Hev := fresh "Hev" in
      let IH := fresh "IH" in
      clear - Hc; induction Hc as [|ev ? Hev ? IH];
      [reflexivity | destruct ev; first [discriminate Hev | exact IH]]
  end.

(** The requests handed to the transport, in order. *)
Definition sentRequests (evs : list Event) : list Request :=
  omap (fun ev => match ev with EvDo r _ => Some r | _ => None end) evs.

(** ** Facts about headers and the normalisation of the request *)

(** The nine deletions of the hop-by-hop loop, read at any key. *)
Lemma delHopHeaders_lookup (h : Header) (k : string) :
  delHopHeaders h !! k = if bool_decide (k ∈ HopHeaders) then None else h !! k.
Proof.
  unfold delHopHeaders, HopHeaders, Header_Del. cbn [foldl].
  repeat match goal with
         | |- context [CanonicalMIMEHeaderKey ?s] =>
             let c := eval vm_compute in (CanonicalMIMEHeaderKey s) in
             change (CanonicalMIMEHeaderKey s) with c
         end.
  case_bool_decide as Hk.
  - repeat (apply elem_of_cons in Hk as [-> | Hk];
            [by rewrite ?lookup_delete_eq, ?lookup_delete; repeat case_decide |]).
    by apply elem_of_nil in Hk.
  - rewrite !lookup_delete_ne; [done | intros <-; apply Hk; set_solver ..].
Qed.

(** Canonical keys are fixed by the canonicalisation: a header map whose
    keys went through [CanonicalMIMEHeaderKey], as the keys of a parsed
    response did, has canonical keys. *)
Lemma upperByte_idem c : upperByte (upperByte c) = upperByte c.
Proof. destruct c as [[] [] [] [] [] [] [] []]; reflexivity. Qed.
Lemma lowerByte_idem c : lowerByte (lowerByte c) = lowerByte c.
Proof. destruct c as [[] [] [] [] [] [] [] []]; reflexivity. Qed.
Lemma valid_upperByte c : validHeaderFieldByte (upperByte c) = validHeaderFieldByte c.
Proof. destruct c as [[] [] [] [] [] [] [] []]; reflexivity. Qed.
Lemma valid_lowerByte c : validHeaderFieldByte (lowerByte c) = validHeaderFieldByte c.
Proof. destruct c as [[] [] [] [] [] [] [] []]; reflexivity. Qed.

Lemma canonLoop_idem s : forall b, canonLoop b (canonLoop b s) = canonLoop b s.
Proof.
  induction s as [|c s IH]; intros b; [done|].
  cbn [canonLoop]. destruct b.
  - rewrite upperByte_idem. f_equal. apply IH.
  - rewrite lowerByte_idem. f_equal. apply IH.
Qed.

Lemma allValid_canonLoop s : forall b, allValid (canonLoop b s) = allValid s.
Proof.
  induction s as [|c s IH]; intros b; [done|].
  cbn [canonLoop allValid]. rewrite IH.
  destruct b; by rewrite ?valid_upperByte, ?valid_lowerByte.
Qed.

Lemma CanonicalMIMEHeaderKey_idem s :
  CanonicalMIMEHeaderKey (CanonicalMIMEHeaderKey s) = CanonicalMIMEHeaderKey s.
Proof.
  unfold CanonicalMIMEHeaderKey.
  destruct (allValid s) eqn:Hvalid.
  - by rewrite allValid_canonLoop, Hvalid, canonLoop_idem.
  - by rewrite Hvalid.
Qed.

Lemma Header_Get_absent (h : Header) (key : string) :
  h !! CanonicalMIMEHeaderKey key = None -> Header_Get h key = "".
Proof. unfold Header_Get. by intros ->. Qed.

Section NormalisationFacts.
Context {I N : Type} `{EndpointIterator I} `{RoundTripper N}.
Variable P : Package.
Implicit Types (req : Request) (f : FastReverseProxy I) (w : World N).

Lemma normalized_proto req :
  ProtoMajor (normalized P req) = ProtoMajor req /\
  ProtoMinor (normalized P req) = ProtoMinor req.
Proof. unfold normalized, foldForwardedFor. by destruct (SplitHostPort _ _). Qed.

Lemma isProtocolSupported_normalized req :
  isProtocolSupported (normalized P req) = isProtocolSupported req.
Proof.
  unfold isProtocolSupported. by destruct (normalized_proto req) as [-> ->].
Qed.

Lemma prepared_fields f req :
  Host (prepared P f req) = Host req /\
  Url (prepared P f req) = Url req /\
  RequestURI (prepared P f req) = RequestURI req.
Proof.
  unfold prepared, setForwardedProto, normalized, foldForwardedFor.
  destruct (SplitHostPort _ _); repeat case_match; done.
Qed.

Lemma routeUri_prepared f req : routeUri (prepared P f req) = routeUri req.
Proof.
  unfold routeUri, hostWithoutPort.
  by destruct (prepared_fields f req) as (-> & -> & _).
Qed.

(** A header that is neither hop-by-hop nor one of the two forwarding
    headers is, at line 136, as the client sent it. *)
Lemma prepared_header_other f req (k : string) :
  k ∉ HopHeaders -> k ≠ "X-Forwarded-For" -> k ≠ "X-Forwarded-Proto" ->
  Header_ (prepared P f req) !! k = Header_ req !! k.
Proof.
  intros Hhop Hxff Hxfp.
  assert (Hn : Header_ (normalized P req) !! k = Header_ req !! k).
  { unfold normalized, foldForwardedFor.
    destruct (SplitHostPort _ _); cbn [Header_ withHeader].
    - unfold Header_Set.
      change (CanonicalMIMEHeaderKey xForwardedForKey) with "X-Forwarded-For".
      rewrite lookup_insert_ne by done.
      rewrite delHopHeaders_lookup. by rewrite bool_decide_eq_false_2.
    - rewrite delHopHeaders_lookup. by rewrite bool_decide_eq_false_2. }
  unfold prepared, setForwardedProto.
  repeat case_match; cbn [Header_ withHeader]; unfold Header_Set;
    change (CanonicalMIMEHeaderKey "X-Forwarded-Proto") with "X-Forwarded-Proto";
    rewrite ?lookup_insert_ne by done; done.
Qed.

(** The hop-by-hop headers are gone from the request the classification
    of lines 156-164 reads. *)
Lemma prepared_header_hop f req (k : string) :
  k ∈ HopHeaders -> Header_ (prepared P f req) !! k = None.
Proof.
  intros Hhop.
  assert (Hx1 : k ≠ "X-Forwarded-For").
  { intros Hk. rewrite Hk in Hhop. revert Hhop. compute_done. }
  assert (Hx2 : k ≠ "X-Forwarded-Proto").
  { intros Hk. rewrite Hk in Hhop. revert Hhop. compute_done. }
  assert (Hn : Header_ (normalized P req) !! k = None).
  { unfold normalized, foldForwardedFor.
    destruct (SplitHostPort _ _); cbn [Header_ withHeader].
    - unfold Header_Set.
      change (CanonicalMIMEHeaderKey xForwardedForKey) with "X-Forwarded-For".
      rewrite lookup_insert_ne by done.
      rewrite delHopHeaders_lookup. by rewrite bool_decide_eq_true_2.
    - rewrite delHopHeaders_lookup. by rewrite bool_decide_eq_true_2. }
  unfold prepared, setForwardedProto.
  repeat case_match; cbn [Header_ withHeader]; unfold Header_Set;
    change (CanonicalMIMEHeaderKey "X-Forwarded-Proto") with "X-Forwarded-Proto";
    rewrite ?lookup_insert_ne by done; done.
Qed.

Lemma upgradeHeader_prepared f req : upgradeHeader (prepared P f req) = "".
Proof.
  unfold upgradeHeader. apply Header_Get_absent.
  change (CanonicalMIMEHeaderKey "Upgrade") with "Upgrade".
  apply prepared_header_hop. compute_done.
Qed.

Lemma isTcpUpgrade_prepared f req : isTcpUpgrade (prepared P f req) = false.
Proof. unfold isTcpUpgrade. by rewrite upgradeHeader_prepared. Qed.

Lemma isWebSocketUpgrade_prepared f req :
  isWebSocketUpgrade (prepared P f req) = false.
Proof. unfold isWebSocketUpgrade. by rewrite upgradeHeader_prepared. Qed.

Lemma getStickySession_prepared f req :
  getStickySession P (prepared P f req) = getStickySession P req.
Proof.
  unfold getStickySession, Request_Cookie.
  rewrite prepared_header_other; [done | | done | done].
  compute_done.
Qed.

End NormalisationFacts.

(** ** The event log is only ever extended *)

Section Frame.
Context {I N : Type} `{EndpointIterator I} `{RoundTripper N}.
Variable P : Package.
Implicit Types (req : Request) (f : FastReverseProxy I) (w : World N)
  (st : LoopState I N) (evs : list Event).

Lemma prepend_clear w : prepend (events w) (clearEvents w) = w.
Proof. destruct w; unfold prepend, clearEvents; cbn. by rewrite app_nil_r. Qed.

Lemma emit_prepend evs ev w : emit ev (prepend evs w) = prepend evs (emit ev w).
Proof. unfold emit, prepend; cbn. by rewrite app_assoc. Qed.

Lemma afterNext_prepend evs req e w :
  afterNext req e (prepend evs w) = prepend evs (afterNext req e w).
Proof.
  unfold afterNext. destruct e; rewrite !emit_prepend; [|done].
  unfold withAccessLog, prepend, emit; cbn. by rewrite !app_assoc.
Qed.

Lemma emitAll_prepend evs evs' w :
  emitAll evs' (prepend evs w) = prepend evs (emitAll evs' w).
Proof. unfold emitAll, prepend; cbn. by rewrite app_assoc. Qed.

Lemma iteration_prepend evs backend st :
  iteration P backend (withWorld st (prepend evs (world st))) =
  (withWorld (iteration P backend st).1
     (prepend evs (world (iteration P backend st).1)),
   (iteration P backend st).2).
Proof.
  unfold iteration, selectEndpoint, wrappedIterator_Next, withWorld.
  cbn [world iter_ loopReq backendResp endpoint_ err_].
  destruct (Next (iter_ st)) as [[e|] it]; rewrite afterNext_prepend; [|done].
  rewrite !emit_prepend. cbn [network prepend emit].
  match goal with |- context [Do ?n ?r] => destruct (Do n r) as [[resp|err] n'] end;
    cbn [fst snd attempted world iter_ loopReq backendResp endpoint_ err_];
    do 2 f_equal; unfold emit, withNetwork, prepend; cbn; by rewrite !app_assoc.
Qed.

Lemma retryLoop_prepend evs n backend st :
  retryLoop P n backend (withWorld st (prepend evs (world st))) =
  withWorld (retryLoop P n backend st)
    (prepend evs (world (retryLoop P n backend st))).
Proof.
  revert st. induction n as [|n IH]; intros st; cbn [retryLoop].
  - done.
  - rewrite iteration_prepend.
    destruct (iteration P backend st) as [st' [|]]; cbn [fst snd]; [|done].
    rewrite IH. done.
Qed.

Lemma withRwHeader_prepend evs w h :
  withRwHeader (prepend evs w) h = prepend evs (withRwHeader w h).
Proof. done. Qed.

Lemma withAccessLog_prepend evs w a :
  withAccessLog (prepend evs w) a = prepend evs (withAccessLog w a).
Proof. done. Qed.

Lemma prepend_fields evs w :
  rwHeader (prepend evs w) = rwHeader w /\
  accessLog (prepend evs w) = accessLog w /\
  rwFlusher (prepend evs w) = rwFlusher w /\
  network (prepend evs w) = network w.
Proof. done. Qed.

Lemma recordStatus_prepend evs resp w :
  recordStatus resp (prepend evs w) = prepend evs (recordStatus resp w).
Proof. by destruct resp. Qed.

Lemma traceHeaders_prepend evs f req e w :
  traceHeaders P f req e (prepend evs w) = prepend evs (traceHeaders P f req e w).
Proof. unfold traceHeaders. destruct e; [|done]. by case_match. Qed.

Lemma writeHeaders_prepend evs h w :
  writeHeaders h (prepend evs w) = prepend evs (writeHeaders h w).
Proof. unfold writeHeaders. by case_match. Qed.

Lemma announceTrailers_prepend evs resp w :
  announceTrailers resp (prepend evs w) = prepend evs (announceTrailers resp w).
Proof. unfold announceTrailers. by case_match. Qed.

Lemma flushForTrailers_prepend evs resp w :
  flushForTrailers resp (prepend evs w) = prepend evs (flushForTrailers resp w).
Proof.
  unfold flushForTrailers. rewrite (proj1 (proj2 (proj2 (prepend_fields _ _)))).
  case_match; [|done]. by rewrite emit_prepend.
Qed.

Lemma copyBodyAndTrailers_prepend evs resp w :
  copyBodyAndTrailers resp (prepend evs w) = prepend evs (copyBodyAndTrailers resp w).
Proof. unfold copyBodyAndTrailers. by rewrite !emit_prepend. Qed.

Lemma relayResponse_prepend evs f req e resp w :
  relayResponse P f req e resp (prepend evs w) =
  prepend evs (relayResponse P f req e resp w).
Proof.
  unfold relayResponse.
  rewrite recordStatus_prepend, traceHeaders_prepend.
  destruct resp as [resp|]; [|by rewrite emit_prepend].
  rewrite writeHeaders_prepend, announceTrailers_prepend.
  rewrite (proj1 (prepend_fields _ _)), emit_prepend.
  by rewrite flushForTrailers_prepend, copyBodyAndTrailers_prepend, emit_prepend.
Qed.

Lemma finish_prepend evs f st :
  finish P f (withWorld st (prepend evs (world st))) = prepend evs (finish P f st).
Proof.
  unfold finish, withWorld; cbn [err_ loopReq endpoint_ backendResp world].
  destruct (err_ st).
  - by rewrite !emit_prepend.
  - by rewrite relayResponse_prepend.
Qed.

Lemma ServeHTTP_prepend evs f w req :
  ServeHTTP P f (prepend evs w) req = prepend evs (ServeHTTP P f w req).
Proof.
  unfold ServeHTTP.
  case_match; [by rewrite emit_prepend|].
  rewrite !emit_prepend.
  case_match; [|done].
  case_match; [done|].
  case_match; [done|].
  destruct (routeServiceGateway P f _ _) as [[backend req'|] calls];
    rewrite emitAll_prepend; [|done].
  match goal with
  | |- context [retryLoop P ?n ?b {| backendResp := ?r; endpoint_ := ?e; err_ := ?x;
                                     loopReq := ?q; iter_ := ?i; world := prepend evs ?w0 |}] =>
      change {| backendResp := r; endpoint_ := e; err_ := x;
                loopReq := q; iter_ := i; world := prepend evs w0 |}
        with (withWorld (loopStart q i w0) (prepend evs (world (loopStart q i w0))));
      change {| backendResp := r; endpoint_ := e; err_ := x;
                loopReq := q; iter_ := i; world := w0 |}
        with (loopStart q i w0)
  end.
  by rewrite retryLoop_prepend, finish_prepend.
Qed.

(** What a call adds to the log does not depend on what the log held. *)
Lemma ServeHTTP_events f w req :
  events (ServeHTTP P f w req) = events w ++ emitted P f w req.
Proof.
  unfold emitted.
  rewrite <- (prepend_clear w) at 1. by rewrite ServeHTTP_prepend.
Qed.

Lemma retryLoop_events n backend st :
  events (world (retryLoop P n backend st)) =
  events (world st) ++ loopEmitted P n backend st.
Proof.
  unfold loopEmitted, loopRun.
  assert (Hst : st = withWorld (withWorld st (clearEvents (world st)))
                       (prepend (events (world st))
                          (world (withWorld st (clearEvents (world st)))))).
  { destruct st; unfold withWorld; cbn. by rewrite prepend_clear. }
  rewrite Hst at 1. by rewrite retryLoop_prepend.
Qed.

End Frame.

(** ** The retry loop *)

Section LoopFacts.
Context {I N : Type} `{EndpointIterator I} `{RoundTripper N}.
Variable P : Package.
Implicit Types (req : Request) (f : FastReverseProxy I) (w : World N)
  (st : LoopState I N) (evs : list Event) (e : Endpoint).

Lemma count_app p evs evs' : count p (evs ++ evs') = count p evs + count p evs'.
Proof. unfold count. by rewrite List.filter_app, length_app. Qed.

Lemma attemptResults_app evs evs' :
  attemptResults (evs ++ evs') = attemptResults evs ++ attemptResults evs'.
Proof. apply omap_app. Qed.

Lemma sentRequests_app evs evs' :
  sentRequests (evs ++ evs') = sentRequests evs ++ sentRequests evs'.
Proof. apply omap_app. Qed.

Lemma count_isDo evs : count isDo evs = length (attemptResults evs).
Proof.
  unfold count, attemptResults.
  induction evs as [|ev evs IH]; [done|].
  destruct ev; cbn; by rewrite ?IH.
Qed.

Lemma loopEmitted_intro n backend st evs :
  events (world (retryLoop P n backend st)) = events (world st) ++ evs ->
  loopEmitted P n backend st = evs.
Proof. rewrite retryLoop_events. apply app_inv_head. Qed.

(** The iterator is exhausted: the pass ends the loop at line 220. *)
Lemma iteration_exhausted backend st it' :
  Next (iter_ st) = (None, it') ->
  iteration P backend st =
  (exhausted st NoEndpointsAvailable it' (emit (EvAfterNext None) (world st)), false).
Proof.
  intros Hnext. unfold iteration, selectEndpoint, wrappedIterator_Next.
  by rewrite Hnext.
Qed.

(** The iterator yields [e]: one attempt is made. *)
Lemma iteration_attempt backend st e it' res n' :
  Next (iter_ st) = (Some e, it') ->
  Do (network (world st)) (outbound P backend (loopReq st) e) = (res, n') ->
  iteration P backend st =
  (afterAttempt P backend st e it' res n',
   match res with inl _ => false | inr err => retryableError P err end).
Proof.
  intros Hnext Hdo. unfold iteration, selectEndpoint, wrappedIterator_Next.
  rewrite Hnext. cbn [afterNext emit withAccessLog network accessLog events rwHeader rwFlusher].
  rewrite Hdo. unfold afterAttempt, attempted, emit, withNetwork; cbn.
  by rewrite <- !app_assoc.
Qed.

(** Every execution of the loop is a run. *)
Lemma retryLoop_LoopRun n backend st :
  exists evs, LoopRun P backend n st evs (retryLoop P n backend st).
Proof.
  revert st. induction n as [|n IH]; intros st; cbn [retryLoop].
  - eexists. constructor.
  - destruct (Next (iter_ st)) as [[e|] it'] eqn:Hnext.
    + destruct (Do (network (world st)) (outbound P backend (loopReq st) e))
        as [[resp|err] n'] eqn:Hdo;
        rewrite (iteration_attempt _ _ _ _ _ _ Hnext Hdo).
      * eexists. by eapply run_success.
      * destruct (retryableError P err) eqn:Hretry.
        -- destruct (IH (afterAttempt P backend st e it' (inr err) n')) as [evs Hrun].
           eexists. by eapply run_retry.
        -- eexists. by eapply run_fatal.
    + rewrite (iteration_exhausted _ _ _ Hnext). eexists. by eapply run_exhausted.
Qed.

Lemma LoopRun_events backend n st evs st' :
  LoopRun P backend n st evs st' -> events (world st') = events (world st) ++ evs.
Proof.
  induction 1 as [st|n st it' _|n st e it' resp n' _ _|n st e it' err n' _ _ _
                  |n st e it' err n' evs st' _ _ _ _ IH]; cbn.
  - by rewrite app_nil_r.
  - done.
  - done.
  - done.
  - rewrite IH. cbn. by rewrite <- app_assoc.
Qed.

(** The events of a run are the events the loop emits. *)
Lemma LoopRun_emitted n backend st :
  LoopRun P backend n st (loopEmitted P n backend st) (retryLoop P n backend st).
Proof.
  destruct (retryLoop_LoopRun n backend st) as [evs Hrun].
  by rewrite (loopEmitted_intro _ _ _ _ (LoopRun_events _ _ _ _ _ Hrun)).
Qed.

Lemma LoopRun_attempt_events backend n st evs st' :
  LoopRun P backend n st evs st' -> Forall (fun ev => isAttemptEvent ev = true) evs.
Proof.
  induction 1; repeat first [done | apply Forall_cons; split | apply Forall_nil].
Qed.

(** The hooks around an attempt fire once per call of the transport. *)
Lemma LoopRun_hooks backend n st evs st' :
  LoopRun P backend n st evs st' ->
  count isPreRequest evs = count isDo evs /\
  count isPostRequest evs = count isDo evs /\
  count isCaptureRoutingRequest evs = count isDo evs.
Proof.
  induction 1 as [| | | |n st e it' err n' evs st' _ _ _ _ IH]; try done.
  rewrite !count_app. destruct IH as (-> & -> & ->). done.
Qed.

Lemma LoopRun_bound backend n st evs st' :
  LoopRun P backend n st evs st' -> length (attemptResults evs) <= n.
Proof.
  induction 1 as [| | | |n st e it' err n' evs st' _ _ _ _ IH];
    unfold attemptResults in *; cbn; lia.
Qed.

(** An attempt that is followed by another one failed with a retryable
    error. *)
Lemma LoopRun_retried backend n st evs st' :
  LoopRun P backend n st evs st' ->
  forall i r, attemptResults evs !! i = Some r ->
              S i < length (attemptResults evs) ->
              exists err, r = inr err /\ retryableError P err = true.
Proof.
  induction 1 as [| | | |n st e it' err n' evs st' _ _ Hretry _ IH];
    intros i r Hi Hlt; unfold attemptResults in *; cbn in *; try lia.
  destruct i as [|i]; cbn in Hi.
  - simplify_eq. by eexists.
  - apply (IH i r Hi). lia.
Qed.

(** An attempt that failed with an error that is not retryable is the
    last one, and its error is the error the loop ends with. *)
Lemma LoopRun_fatal backend n st evs st' :
  LoopRun P backend n st evs st' ->
  forall i err, attemptResults evs !! i = Some (inr err) ->
                retryableError P err = false ->
                length (attemptResults evs) = S i /\ err_ st' = Some err.
Proof.
  induction 1 as [| | |n st e it' err0 n' _ _ _|n st e it' err0 n' evs st' _ _ Hretry _ IH];
    intros i err Hi Hfatal; unfold attemptResults in *; cbn in *; try done.
  - by destruct i.
  - destruct i as [|i]; cbn in Hi; [|done]. by simplify_eq.
  - destruct i as [|i]; cbn in Hi.
    + simplify_eq. congruence.
    + destruct (IH i err Hi Hfatal) as [-> ->]. done.
Qed.

(** A loop that ran and ends without an error holds the response of its
    last attempt and the endpoint that gave it. *)
Lemma LoopRun_success backend n st evs st' :
  LoopRun P backend n st evs st' -> 0 < n -> err_ st' = None ->
  exists resp e, backendResp st' = Some resp /\ endpoint_ st' = Some e /\
                 last (attemptResults evs) = Some (inl resp).
Proof.
  induction 1 as [| | | |n st e it' err n' evs st' _ _ _ Hrun IH];
    intros Hn Herr; cbn in *; try done; try lia.
  - by eexists _, _.
  - destruct n as [|n].
    + inversion Hrun; subst. done.
    + destruct IH as (resp & e' & ? & ? & Hlast); [lia | done |].
      exists resp, e'. split; [done|]. split; [done|].
      unfold attemptResults in *. cbn. rewrite last_cons. by rewrite Hlast.
Qed.

End LoopFacts.

(** ** The paths through the dispatcher *)

Section DispatchFacts.
Context {I N : Type} `{EndpointIterator I} `{RoundTripper N}.
Variable P : Package.
Implicit Types (req : Request) (f : FastReverseProxy I) (w : World N)
  (st : LoopState I N) (evs : list Event) (e : Endpoint) (pool : Pool I).

Lemma ServeHTTP_unsupported f w req :
  isProtocolSupported req = false ->
  ServeHTTP P f w req = emit EvHandleUnsupportedProtocol w.
Proof.
  intros Hproto. unfold ServeHTTP.
  by rewrite isProtocolSupported_normalized, Hproto.
Qed.

Lemma ServeHTTP_missing f w req :
  isProtocolSupported req = true -> registry f (routeUri req) = None ->
  ServeHTTP P f w req = emitAll [EvLookup (routeUri req); EvHandleMissingRoute] w.
Proof.
  intros Hproto Hlookup. unfold ServeHTTP.
  rewrite isProtocolSupported_normalized, Hproto. cbn [negb].
  fold (prepared P f req). rewrite routeUri_prepared, Hlookup.
  unfold emitAll, emit; cbn. by rewrite <- app_assoc.
Qed.

Lemma ServeHTTP_rejected f w req pool calls :
  isProtocolSupported req = true -> registry f (routeUri req) = Some pool ->
  routeServiceGateway P f pool (prepared P f req) = (Rejected, calls) ->
  ServeHTTP P f w req = emitAll (preamble P f req calls) w.
Proof.
  intros Hproto Hlookup Hgw. unfold ServeHTTP.
  rewrite isProtocolSupported_normalized, Hproto. cbn [negb].
  fold (prepared P f req).
  rewrite routeUri_prepared, Hlookup, getStickySession_prepared.
  rewrite isTcpUpgrade_prepared, isWebSocketUpgrade_prepared, Hgw.
  unfold emitAll, emit, preamble; cbn. by rewrite <- !app_assoc.
Qed.

Lemma ServeHTTP_proceed f w req pool backend breq calls :
  isProtocolSupported req = true -> registry f (routeUri req) = Some pool ->
  routeServiceGateway P f pool (prepared P f req) = (Proceed backend breq, calls) ->
  ServeHTTP P f w req =
  finish P f
    (retryLoop P maxRetries backend
       (loopStart breq
          (Endpoints pool (defaultLoadBalance f) (getStickySession P req))
          (emitAll (preamble P f req calls) w))).
Proof.
  intros Hproto Hlookup Hgw. unfold ServeHTTP.
  rewrite isProtocolSupported_normalized, Hproto. cbn [negb].
  fold (prepared P f req).
  rewrite routeUri_prepared, Hlookup, getStickySession_prepared.
  rewrite isTcpUpgrade_prepared, isWebSocketUpgrade_prepared, Hgw.
  unfold loopStart. do 3 f_equal.
  unfold emitAll, emit, preamble; cbn. by rewrite <- !app_assoc.
Qed.

(** The events of the relay: the status line with the header map as it
    is then, a flush when trailers force one, the body, the continuation. *)
Lemma relayResponse_events f req endpoint resp w :
  exists fl,
    (fl = [] \/ fl = [EvFlush]) /\
    events (relayResponse P f req endpoint (Some resp) w) =
    events w ++
    [EvWriteHeader (StatusCode resp) (sentHeader P f req endpoint resp w)] ++ fl ++
    [EvCopyResponse (Body resp); EvBodyClose; EvNextHandler req].
Proof.
  unfold relayResponse, copyBodyAndTrailers, flushForTrailers, sentHeader.
  set (w1 := announceTrailers resp _).
  assert (Hev : events w1 = events w).
  { unfold w1, announceTrailers, writeHeaders, traceHeaders, recordStatus.
    repeat case_match; done. }
  destruct (negb (size (Trailer resp) =? 0) && rwFlusher _).
  - exists [EvFlush]. split; [by right|]. cbn. rewrite Hev.
    by rewrite <- !app_assoc.
  - exists []. split; [by left|]. cbn. rewrite Hev.
    by rewrite <- !app_assoc.
Qed.

Lemma finish_failed f st err :
  err_ st = Some err ->
  finish P f st =
  emitAll [ EvHandleBadGateway err (loopReq st);
            EvWrite "Exceeded max retries: Timed out connecting to backends." ]
    (world st).
Proof.
  intros Herr. unfold finish. rewrite Herr.
  unfold emitAll, emit; cbn. by rewrite <- app_assoc.
Qed.

Lemma finish_succeeded f st resp :
  err_ st = None -> backendResp st = Some resp ->
  finish P f st = relayResponse P f (loopReq st) (endpoint_ st) (Some resp) (world st).
Proof. intros Herr Hresp. unfold finish. by rewrite Herr, Hresp. Qed.

(** Every call takes one of the four paths. *)
Lemma ServeHTTP_paths f w req :
  ServeHTTP P f w req = emit EvHandleUnsupportedProtocol w \/
  ServeHTTP P f w req = emitAll [EvLookup (routeUri req); EvHandleMissingRoute] w \/
  (exists pool calls,
      routeServiceGateway P f pool (prepared P f req) = (Rejected, calls) /\
      ServeHTTP P f w req = emitAll (preamble P f req calls) w) \/
  (exists pool backend breq calls,
      routeServiceGateway P f pool (prepared P f req) = (Proceed backend breq, calls) /\
      ServeHTTP P f w req =
      finish P f
        (retryLoop P maxRetries backend
           (loopStart breq
              (Endpoints pool (defaultLoadBalance f) (getStickySession P req))
              (emitAll (preamble P f req calls) w)))).
Proof.
  destruct (isProtocolSupported req) eqn:Hproto;
    [|left; by apply ServeHTTP_unsupported].
  destruct (registry f (routeUri req)) as [pool|] eqn:Hlookup;
    [|right; left; by apply ServeHTTP_missing].
  destruct (routeServiceGateway P f pool (prepared P f req))
    as [[backend breq|] calls] eqn:Hgw.
  - do 3 right. exists pool, backend, breq, calls. split; [done|].
    by apply ServeHTTP_proceed.
  - do 2 right. left. exists pool, calls. split; [done|].
    by eapply ServeHTTP_rejected.
Qed.

Lemma emitted_intro f w req evs :
  events (ServeHTTP P f w req) = events w ++ evs -> emitted P f w req = evs.
Proof. rewrite ServeHTTP_events. apply app_inv_head. Qed.

(** The calls of the gateway: it either rejects through exactly one
    responder, or proceeds without touching responder or transport. *)
Lemma routeServiceGateway_calls f pool req gateway calls :
  routeServiceGateway P f pool req = (gateway, calls) ->
  count isNextHandler calls = 0 /\ count isCopyResponse calls = 0 /\
  attemptResults calls = [] /\
  count isResponder calls = match gateway with Rejected => 1 | Proceed _ _ => 0 end.
Proof.
  unfold routeServiceGateway. intros Hgw.
  repeat case_match; simplify_eq; done.
Qed.

Lemma routeServiceGateway_no_hooks f pool req gateway calls :
  routeServiceGateway P f pool req = (gateway, calls) ->
  count isPreRequest calls = 0 /\ count isPostRequest calls = 0 /\
  count isAfterNext calls = 0 /\ count isCaptureRoutingRequest calls = 0 /\
  count isDo calls = 0 /\ sentRequests calls = [].
Proof.
  unfold routeServiceGateway. intros Hgw.
  repeat case_match; simplify_eq; done.
Qed.

Lemma attempt_events_counts evs :
  Forall (fun ev => isAttemptEvent ev = true) evs ->
  count isNextHandler evs = 0 /\ count isCopyResponse evs = 0 /\
  count isResponder evs = 0.
Proof.
  induction 1 as [|ev evs Hev _ IH]; [done|].
  destruct ev; try done; apply IH.
Qed.

(** The log of a call that reaches the retry loop: the preamble, the
    events of the loop, and either the bad-gateway report or the relay. *)
Lemma ServeHTTP_proceed_events f w req pool backend breq calls :
  isProtocolSupported req = true -> registry f (routeUri req) = Some pool ->
  routeServiceGateway P f pool (prepared P f req) = (Proceed backend breq, calls) ->
  let st0 := loopStart breq
               (Endpoints pool (defaultLoadBalance f) (getStickySession P req))
               (emitAll (preamble P f req calls) w) in
  let st' := retryLoop P maxRetries backend st0 in
  exists tail,
    emitted P f w req =
      preamble P f req calls ++ loopEmitted P maxRetries backend st0 ++ tail /\
    ((exists err,
         err_ st' = Some err /\
         tail = [ EvHandleBadGateway err (loopReq st');
                  EvWrite "Exceeded max retries: Timed out connecting to backends." ])
     \/
     (exists resp h fl,
         h = sentHeader P f (loopReq st') (endpoint_ st') resp (world st') /\
         err_ st' = None /\ backendResp st' = Some resp /\
         last (attemptResults (loopEmitted P maxRetries backend st0)) = Some (inl resp) /\
         (fl = [] \/ fl = [EvFlush]) /\
         tail = [EvWriteHeader (StatusCode resp) h] ++ fl ++
                [EvCopyResponse (Body resp); EvBodyClose; EvNextHandler (loopReq st')])).
Proof.
  intros Hproto Hlookup Hgw st0 st'.
  pose proof (LoopRun_emitted P maxRetries backend st0) as Hrun.
  pose proof (retryLoop_events P maxRetries backend st0) as Hev.
  fold st' in Hrun, Hev.
  destruct (err_ st') as [err|] eqn:Herr.
  - eexists. split; [|left; by eexists].
    apply emitted_intro.
    rewrite (ServeHTTP_proceed _ _ _ _ _ _ _ Hproto Hlookup Hgw).
    fold st0 st'. rewrite (finish_failed _ _ _ Herr). cbn [events emitAll].
    rewrite Hev. cbn. by rewrite <- !app_assoc.
  - destruct (LoopRun_success P _ _ _ _ _ Hrun) as (resp & e & Hresp & _ & Hlast);
      [unfold maxRetries; lia | done |].
    destruct (relayResponse_events f (loopReq st') (endpoint_ st') resp (world st'))
      as (fl & Hfl & Hrelay).
    eexists. split; [|right; by eexists resp, _, fl].
    apply emitted_intro.
    rewrite (ServeHTTP_proceed _ _ _ _ _ _ _ Hproto Hlookup Hgw).
    fold st0 st'. rewrite (finish_succeeded _ _ _ Herr Hresp), Hrelay, Hev.
    cbn. by rewrite <- !app_assoc.
Qed.

End DispatchFacts.

(** ** The dispatcher: protocol check and continuation *)

Section DispatcherClaims.
Context {I N : Type} `{EndpointIterator I} `{RoundTripper N}.
Variable P : Package.
Implicit Types (req : Request) (f : FastReverseProxy I) (w : World N)
  (st : LoopState I N) (evs : list Event) (e : Endpoint) (pool : Pool I).

(** C6.  A request whose protocol is not HTTP/1.0 or HTTP/1.1 is answered
    with the unsupported-protocol failure and nothing else: the registry is
    not consulted, no attempt is made, and the network, the access log and
    the writer's headers are as they were. *)
Theorem unsupported_protocol_is_rejected f w req :
  (ProtoMajor req ≠ 1 \/ (ProtoMinor req ≠ 0 /\ ProtoMinor req ≠ 1))%Z ->
  ServeHTTP P f w req = emit EvHandleUnsupportedProtocol w /\
  emitted P f w req = [EvHandleUnsupportedProtocol].
Proof.
  intros Hproto.
  assert (Hunsupported : isProtocolSupported req = false).
  { unfold isProtocolSupported.
    destruct (Z.eqb_spec (ProtoMajor req) 1), (Z.eqb_spec (ProtoMinor req) 0),
      (Z.eqb_spec (ProtoMinor req) 1); cbn; try done; lia. }
  split; [by apply ServeHTTP_unsupported|].
  apply emitted_intro. by rewrite ServeHTTP_unsupported.
Qed.

(** C9.  The continuation is called exactly once, as the last event, on
    the path where the last attempt gave a response and its body was copied,
    and no responder is called on that path; on every other path exactly one
    responder (a failure or a tunnel hand-off) is called, and neither the
    body copy nor the continuation takes place. *)
Theorem continuation_only_after_success f w req :
  let evs := emitted P f w req in
  (count isNextHandler evs = 1 /\ count isResponder evs = 0 /\
   exists before resp req',
     last (attemptResults evs) = Some (inl resp) /\
     evs = before ++ [EvCopyResponse (Body resp); EvBodyClose; EvNextHandler req'])
  \/
  (count isNextHandler evs = 0 /\ count isResponder evs = 1 /\
   count isCopyResponse evs = 0).
Proof.
  cbn zeta.
  destruct (isProtocolSupported req) eqn:Hproto.
  2:{ right. rewrite (emitted_intro P f w req [EvHandleUnsupportedProtocol]); [done|].
      by rewrite ServeHTTP_unsupported. }
  destruct (registry f (routeUri req)) as [pool|] eqn:Hlookup.
  2:{ right.
      rewrite (emitted_intro P f w req [EvLookup (routeUri req); EvHandleMissingRoute]);
        [done|]. by rewrite ServeHTTP_missing. }
  destruct (routeServiceGateway P f pool (prepared P f req))
    as [[backend breq|] calls] eqn:Hgw.
  2:{ right. rewrite (emitted_intro P f w req (preamble P f req calls)).
      - destruct (routeServiceGateway_calls _ _ _ _ _ _ Hgw) as (Hn & Hc & _ & Hr).
        unfold preamble. rewrite !count_app, Hn, Hc, Hr. done.
      - by rewrite (ServeHTTP_rejected _ _ _ _ _ _ Hproto Hlookup Hgw). }
  destruct (ServeHTTP_proceed_events P f w req pool backend breq calls Hproto Hlookup Hgw)
    as (tail & -> & Htail).
  set (st0 := loopStart _ _ _) in *.
  destruct (routeServiceGateway_calls _ _ _ _ _ _ Hgw) as (Hn & Hc & Ha & Hr).
  destruct (attempt_events_counts _
              (LoopRun_attempt_events P _ _ _ _ _ (LoopRun_emitted P maxRetries backend st0)))
    as (Hln & Hlc & Hlr).
  unfold preamble. rewrite !count_app, Hn, Hc, Hr, Hln, Hlc, Hlr.
  destruct Htail as [(err & _ & ->) | (resp & h & fl & _ & _ & _ & Hlast & Hfl & ->)].
  - right. done.
  - left. split; [by destruct Hfl as [-> | ->]|]. split; [by destruct Hfl as [-> | ->]|].
    exists (([EvLookup (routeUri req);
              EvEndpoints (defaultLoadBalance f) (getStickySession P req)] ++ calls) ++
            loopEmitted P maxRetries backend st0 ++
            [EvWriteHeader (StatusCode resp) h] ++ fl), resp,
           (loopReq (retryLoop P maxRetries backend st0)).
    split; [|by rewrite <- !app_assoc].
    assert (Htail : attemptResults
              ([EvWriteHeader (StatusCode resp) h] ++ fl ++
               [EvCopyResponse (Body resp); EvBodyClose;
                EvNextHandler (loopReq (retryLoop P maxRetries backend st0))]) = [])
      by (by destruct Hfl as [-> | ->]).
    rewrite (attemptResults_app (_ ++ calls)), (attemptResults_app _ calls),
      (attemptResults_app (loopEmitted _ _ _ _)), Ha, Htail.
    change (attemptResults [EvLookup _; EvEndpoints _ _]) with (@nil (Response + error)).
    by rewrite !app_nil_r.
Qed.

End DispatcherClaims.

(** ** The retry loop in the dispatcher *)

Section RetryClaims.
Context {I N : Type} `{EndpointIterator I} `{RoundTripper N}.
Variable P : Package.
Implicit Types (req : Request) (f : FastReverseProxy I) (w : World N)
  (st : LoopState I N) (evs : list Event) (e : Endpoint) (pool : Pool I).

(** The attempts of a call are the attempts of its retry loop, and a call
    that does not reach the loop makes none. *)
Lemma emitted_attempts f w req :
  attemptResults (emitted P f w req) = [] \/
  exists backend st0,
    attemptResults (emitted P f w req) =
      attemptResults (loopEmitted P maxRetries backend st0) /\
    (forall err, err_ (retryLoop P maxRetries backend st0) = Some err ->
                 exists r, EvHandleBadGateway err r ∈ emitted P f w req).
Proof.
  destruct (isProtocolSupported req) eqn:Hproto.
  2:{ left. rewrite (emitted_intro P f w req [EvHandleUnsupportedProtocol]); [done|].
      by rewrite ServeHTTP_unsupported. }
  destruct (registry f (routeUri req)) as [pool|] eqn:Hlookup.
  2:{ left.
      rewrite (emitted_intro P f w req [EvLookup (routeUri req); EvHandleMissingRoute]);
        [done|]. by rewrite ServeHTTP_missing. }
  destruct (routeServiceGateway P f pool (prepared P f req))
    as [[backend breq|] calls] eqn:Hgw.
  2:{ left. rewrite (emitted_intro P f w req (preamble P f req calls)).
      - destruct (routeServiceGateway_calls _ _ _ _ _ _ Hgw) as (_ & _ & Ha & _).
        unfold preamble. by rewrite attemptResults_app, Ha.
      - by rewrite (ServeHTTP_rejected _ _ _ _ _ _ Hproto Hlookup Hgw). }
  right.
  destruct (ServeHTTP_proceed_events P f w req pool backend breq calls Hproto Hlookup Hgw)
    as (tail & -> & Htail).
  set (st0 := loopStart _ _ _) in *.
  exists backend, st0.
  destruct (routeServiceGateway_calls _ _ _ _ _ _ Hgw) as (_ & _ & Ha & _).
  assert (Htl : attemptResults tail = []).
  { destruct Htail as [(err & _ & ->) | (resp & h & fl & _ & _ & _ & _ & Hfl & ->)];
      [done | by destruct Hfl as [-> | ->]]. }
  split.
  - unfold preamble.
    rewrite (attemptResults_app (_ ++ calls)), (attemptResults_app _ calls),
      (attemptResults_app (loopEmitted _ _ _ _)), Ha, Htl.
    change (attemptResults [EvLookup _; EvEndpoints _ _]) with (@nil (Response + error)).
    by rewrite !app_nil_r.
  - intros err Herr.
    destruct Htail as [(err' & Herr' & ->) | (resp & h & fl & _ & Hnone & _)];
      [|congruence].
    assert (err' = err) as -> by congruence.
    eexists. rewrite !elem_of_app. right. right. apply elem_of_cons. by left.
Qed.

(** C4.  The loop makes at most three attempts; an attempt that is
    followed by another one failed with an error whose text contains "dial";
    an attempt that fails with any other error is the last one and the loop
    ends with that error.  The same holds of the attempts of a whole call,
    which then reports that error through the bad-gateway responder. *)
Theorem retry_is_bounded_and_only_after_dial_errors :
  (forall backend st,
      let rs := attemptResults (loopEmitted P maxRetries backend st) in
      length rs <= 3 /\
      (forall i r, rs !! i = Some r -> S i < length rs ->
                   exists err, r = inr err /\ Contains (Error P err) "dial" = true) /\
      (forall i err, rs !! i = Some (inr err) -> Contains (Error P err) "dial" = false ->
                     length rs = S i /\
                     err_ (retryLoop P maxRetries backend st) = Some err)) /\
  (forall f w req,
      let rs := attemptResults (emitted P f w req) in
      length rs <= 3 /\
      (forall i r, rs !! i = Some r -> S i < length rs ->
                   exists err, r = inr err /\ Contains (Error P err) "dial" = true) /\
      (forall i err, rs !! i = Some (inr err) -> Contains (Error P err) "dial" = false ->
                     length rs = S i /\
                     exists r, EvHandleBadGateway err r ∈ emitted P f w req)).
Proof.
  assert (Hloop : forall backend st,
      let rs := attemptResults (loopEmitted P maxRetries backend st) in
      length rs <= 3 /\
      (forall i r, rs !! i = Some r -> S i < length rs ->
                   exists err, r = inr err /\ Contains (Error P err) "dial" = true) /\
      (forall i err, rs !! i = Some (inr err) -> Contains (Error P err) "dial" = false ->
                     length rs = S i /\
                     err_ (retryLoop P maxRetries backend st) = Some err)).
  { intros backend st rs.
    pose proof (LoopRun_emitted P maxRetries backend st) as Hrun.
    split; [exact (LoopRun_bound P _ _ _ _ _ Hrun)|]. split.
    - exact (LoopRun_retried P _ _ _ _ _ Hrun).
    - exact (LoopRun_fatal P _ _ _ _ _ Hrun). }
  split; [exact Hloop|].
  intros f w req rs.
  destruct (emitted_attempts f w req) as [Hnil | (backend & st0 & Hrs & Hbad)];
    subst rs.
  - rewrite Hnil. cbn. split; [lia|]. split; intros i ?; by destruct i.
  - rewrite Hrs. destruct (Hloop backend st0) as (Hbound & Hretried & Hfatal).
    split; [done|]. split; [done|].
    intros i err Hi Hother. destruct (Hfatal i err Hi Hother) as [Hlen Herr].
    split; [done|]. by apply Hbad.
Qed.

(** The loop entered with an exhausted iterator. *)
Lemma retryLoop_exhausted backend st it' :
  Next (iter_ st) = (None, it') ->
  retryLoop P maxRetries backend st =
  exhausted st NoEndpointsAvailable it' (emit (EvAfterNext None) (world st)).
Proof.
  intros Hnext. unfold maxRetries. cbn [retryLoop].
  by rewrite (iteration_exhausted _ _ _ _ Hnext).
Qed.

(** C3, as the code has it.  When the first advance of the iterator yields
    no endpoint, the call makes no attempt and fires no pre-attempt or
    post-attempt hook, the loop is left at once, and the failure is delivered
    through the bad-gateway responder, which receives the NoEndpointsAvailable
    error, followed by the literal message written to the client. *)
Theorem exhausted_iterator_is_reported_through_bad_gateway
    f w req pool backend breq calls it' :
  isProtocolSupported req = true ->
  registry f (routeUri req) = Some pool ->
  routeServiceGateway P f pool (prepared P f req) = (Proceed backend breq, calls) ->
  Next (Endpoints pool (defaultLoadBalance f) (getStickySession P req)) = (None, it') ->
  let evs := emitted P f w req in
  evs = preamble P f req calls ++
        [ EvAfterNext None;
          EvHandleBadGateway NoEndpointsAvailable breq;
          EvWrite "Exceeded max retries: Timed out connecting to backends." ] /\
  count isDo evs = 0 /\ count isPreRequest evs = 0 /\ count isPostRequest evs = 0 /\
  network (ServeHTTP P f w req) = network w.
Proof.
  intros Hproto Hlookup Hgw Hnext evs.
  assert (Hserve : ServeHTTP P f w req =
            emitAll [ EvAfterNext None;
                      EvHandleBadGateway NoEndpointsAvailable breq;
                      EvWrite "Exceeded max retries: Timed out connecting to backends." ]
              (emitAll (preamble P f req calls) w)).
  { rewrite (ServeHTTP_proceed _ _ _ _ _ _ _ _ Hproto Hlookup Hgw).
    rewrite (retryLoop_exhausted _ _ it'); [|done].
    rewrite (finish_failed _ _ _ NoEndpointsAvailable); [|done].
    unfold exhausted, emitAll, emit; cbn. by rewrite <- !app_assoc. }
  assert (Hevs : evs = preamble P f req calls ++
                   [ EvAfterNext None;
                     EvHandleBadGateway NoEndpointsAvailable breq;
                     EvWrite "Exceeded max retries: Timed out connecting to backends." ]).
  { apply emitted_intro. rewrite Hserve. cbn. by rewrite <- !app_assoc. }
  split; [done|].
  destruct (routeServiceGateway_calls _ _ _ _ _ _ Hgw) as (_ & _ & Ha & _).
  assert (Hdo : count isDo evs = 0).
  { rewrite count_isDo, Hevs. unfold preamble.
    by rewrite !attemptResults_app, Ha. }
  split; [done|].
  destruct (routeServiceGateway_no_hooks _ _ _ _ _ _ Hgw) as (Hpre & Hpost & _ & _ & _ & _).
  assert (Hcalls : count isPreRequest calls = 0 /\ count isPostRequest calls = 0) by done.
  rewrite Hevs. unfold preamble. rewrite !count_app.
  destruct Hcalls as [-> ->]. split; [done|]. split; [done|].
  by rewrite Hserve.
Qed.

(** C5.  The iterator yields E1, E2 and E3; the attempts on E1 and E2 fail
    with an error whose text contains "dial", the attempt on E3 succeeds.
    Then the call makes exactly three attempts, on the requests prepared for
    E1, E2 and E3 in turn; the pre-attempt hook, the post-attempt hook and
    the after-selection hook (with its report to the metrics collaborator)
    each fire exactly three times; no responder is called; and the call ends
    by writing the status of E3's response, copying its body and calling the
    continuation. *)
Theorem two_dial_errors_then_success
    f w req pool backend breq calls e1 e2 e3 it1 it2 it3 err1 err2 resp n1 n2 n3 :
  isProtocolSupported req = true ->
  registry f (routeUri req) = Some pool ->
  routeServiceGateway P f pool (prepared P f req) = (Proceed backend breq, calls) ->
  let r1 := outbound P backend breq e1 in
  let r2 := outbound P backend r1 e2 in
  let r3 := outbound P backend r2 e3 in
  Next (Endpoints pool (defaultLoadBalance f) (getStickySession P req)) = (Some e1, it1) ->
  Do (network w) r1 = (inr err1, n1) ->
  Contains (Error P err1) "dial" = true ->
  Next (PostRequest (PreRequest it1 e1) e1) = (Some e2, it2) ->
  Do n1 r2 = (inr err2, n2) ->
  Contains (Error P err2) "dial" = true ->
  Next (PostRequest (PreRequest it2 e2) e2) = (Some e3, it3) ->
  Do n2 r3 = (inl resp, n3) ->
  let evs := emitted P f w req in
  attemptResults evs = [inr err1; inr err2; inl resp] /\
  sentRequests evs = [r1; r2; r3] /\
  count isDo evs = 3 /\
  count isPostRequest evs = 3 /\
  count isPreRequest evs = 3 /\
  count isAfterNext evs = 3 /\
  count isCaptureRoutingRequest evs = 3 /\
  count isResponder evs = 0 /\
  exists h fl,
    (fl = [] \/ fl = [EvFlush]) /\
    evs = preamble P f req calls ++
          [ EvAfterNext (Some e1); EvCaptureRoutingRequest e1 breq; EvPreRequest e1;
            EvDo r1 (inr err1); EvPostRequest e1;
            EvAfterNext (Some e2); EvCaptureRoutingRequest e2 r1; EvPreRequest e2;
            EvDo r2 (inr err2); EvPostRequest e2;
            EvAfterNext (Some e3); EvCaptureRoutingRequest e3 r2; EvPreRequest e3;
            EvDo r3 (inl resp); EvPostRequest e3 ] ++
          [EvWriteHeader (StatusCode resp) h] ++ fl ++
          [EvCopyResponse (Body resp); EvBodyClose; EvNextHandler r3].
Proof.
  intros Hproto Hlookup Hgw r1 r2 r3 Hnext1 Hdo1 Hdial1 Hnext2 Hdo2 Hdial2 Hnext3 Hdo3 evs.
  destruct (ServeHTTP_proceed_events P f w req pool backend breq calls Hproto Hlookup Hgw)
    as (tail & Hevs & Htail).
  set (st0 := loopStart _ _ _) in *.
  set (st1 := afterAttempt P backend st0 e1 it1 (inr err1) n1).
  set (st2 := afterAttempt P backend st1 e2 it2 (inr err2) n2).
  assert (Hloop : retryLoop P maxRetries backend st0 =
                  afterAttempt P backend st2 e3 it3 (inl resp) n3).
  { unfold maxRetries. cbn [retryLoop].
    rewrite (iteration_attempt P backend st0 e1 it1 (inr err1) n1 Hnext1 Hdo1).
    change (retryableError P err1) with (Contains (Error P err1) "dial").
    rewrite Hdial1. fold st1.
    rewrite (iteration_attempt P backend st1 e2 it2 (inr err2) n2 Hnext2 Hdo2).
    change (retryableError P err2) with (Contains (Error P err2) "dial").
    rewrite Hdial2. fold st2.
    by rewrite (iteration_attempt P backend st2 e3 it3 (inl resp) n3 Hnext3 Hdo3). }
  assert (Hemit : loopEmitted P maxRetries backend st0 =
            [ EvAfterNext (Some e1); EvCaptureRoutingRequest e1 breq; EvPreRequest e1;
              EvDo r1 (inr err1); EvPostRequest e1;
              EvAfterNext (Some e2); EvCaptureRoutingRequest e2 r1; EvPreRequest e2;
              EvDo r2 (inr err2); EvPostRequest e2;
              EvAfterNext (Some e3); EvCaptureRoutingRequest e3 r2; EvPreRequest e3;
              EvDo r3 (inl resp); EvPostRequest e3 ]).
  { apply loopEmitted_intro. rewrite Hloop. cbn. by rewrite <- !app_assoc. }
  rewrite Hloop, Hemit in Htail. rewrite Hemit in Hevs.
  destruct Htail as [(err & Herr & _) | (resp' & h & fl & _ & _ & Hresp & _ & Hfl & ->)];
    [done|].
  cbn in Hresp. assert (resp' = resp) as -> by congruence.
  change (loopReq (afterAttempt P backend st2 e3 it3 (inl resp) n3)) with r3 in Hevs.
  fold evs in Hevs.
  destruct (routeServiceGateway_calls _ _ _ _ _ _ Hgw) as (_ & _ & Ha & Hr).
  destruct (routeServiceGateway_no_hooks _ _ _ _ _ _ Hgw)
    as (Hpre & Hpost & Hafter & Hcapture & Hdo & Hsent).
  rewrite Hevs. unfold preamble.
  rewrite !attemptResults_app, !sentRequests_app, !count_app,
    Ha, Hr, Hpre, Hpost, Hafter, Hcapture, Hdo, Hsent.
  repeat (split; [by destruct Hfl as [-> | ->]|]).
  by exists h, fl.
Qed.

End RetryClaims.

(** ** Sticky sessions *)

Section StickyClaims.
Context {I N : Type} `{EndpointIterator I} `{RoundTripper N}.
Variable P : Package.
Implicit Types (req : Request) (f : FastReverseProxy I) (w : World N)
  (st : LoopState I N) (evs : list Event) (e : Endpoint) (pool : Pool I).

Lemma routeServiceGateway_no_endpoints f pool req gateway calls lb sticky :
  routeServiceGateway P f pool req = (gateway, calls) ->
  EvEndpoints lb sticky ∉ calls.
Proof.
  unfold routeServiceGateway. intros Hgw.
  repeat case_match; simplify_eq; set_solver.
Qed.

(** C7.  The resolver returns the value of the affinity cookie when the
    marker cookie and the affinity cookie are both on the request, and the
    empty string when either is missing.  The pool is asked for its iterator
    once, after the registry lookup, with the configured strategy and with
    the resolver's value for the request as the client sent it, and the
    retry loop runs on that iterator. *)
Theorem sticky_session_is_the_affinity_cookie f w req :
  (forall marker affinity,
      Request_Cookie P req (StickyCookieKey P) = Some marker ->
      Request_Cookie P req (VcapCookieId P) = Some affinity ->
      getStickySession P req = Value affinity) /\
  (Request_Cookie P req (StickyCookieKey P) = None \/
   Request_Cookie P req (VcapCookieId P) = None ->
   getStickySession P req = "") /\
  (forall lb sticky,
      EvEndpoints lb sticky ∈ emitted P f w req ->
      lb = defaultLoadBalance f /\ sticky = getStickySession P req) /\
  (forall pool,
      isProtocolSupported req = true -> registry f (routeUri req) = Some pool ->
      exists rest,
        emitted P f w req =
        EvLookup (routeUri req) ::
        EvEndpoints (defaultLoadBalance f) (getStickySession P req) :: rest) /\
  (forall pool backend breq calls,
      isProtocolSupported req = true -> registry f (routeUri req) = Some pool ->
      routeServiceGateway P f pool (prepared P f req) = (Proceed backend breq, calls) ->
      ServeHTTP P f w req =
      finish P f
        (retryLoop P maxRetries backend
           (loopStart breq
              (Endpoints pool (defaultLoadBalance f) (getStickySession P req))
              (emitAll (preamble P f req calls) w)))).
Proof.
  split; [|split; [|split; [|split]]].
  - intros marker affinity Hmarker Haffinity. unfold getStickySession.
    by rewrite Hmarker, Haffinity.
  - unfold getStickySession. intros [-> | ->]; [done|]. by case_match.
  - intros lb sticky Hin.
    destruct (isProtocolSupported req) eqn:Hproto.
    2:{ rewrite (emitted_intro P f w req [EvHandleUnsupportedProtocol]) in Hin;
          [set_solver|]. by rewrite ServeHTTP_unsupported. }
    destruct (registry f (routeUri req)) as [pool|] eqn:Hlookup.
    2:{ rewrite (emitted_intro P f w req [EvLookup (routeUri req); EvHandleMissingRoute])
          in Hin; [set_solver|]. by rewrite ServeHTTP_missing. }
    destruct (routeServiceGateway P f pool (prepared P f req))
      as [[backend breq|] calls] eqn:Hgw.
    2:{ rewrite (emitted_intro P f w req (preamble P f req calls)) in Hin.
        - pose proof (routeServiceGateway_no_endpoints _ _ _ _ _ lb sticky Hgw).
          unfold preamble in Hin. set_solver.
        - by rewrite (ServeHTTP_rejected _ _ _ _ _ _ Hproto Hlookup Hgw). }
    destruct (ServeHTTP_proceed_events P f w req pool backend breq calls Hproto Hlookup Hgw)
      as (tail & Hevs & Htail).
    set (st0 := loopStart _ _ _) in *.
    rewrite Hevs in Hin.
    pose proof (routeServiceGateway_no_endpoints _ _ _ _ _ lb sticky Hgw) as Hcalls.
    pose proof (LoopRun_attempt_events P _ _ _ _ _
                  (LoopRun_emitted P maxRetries backend st0)) as Hloop.
    rewrite Forall_forall in Hloop.
    apply elem_of_app in Hin as [Hin | Hin].
    { unfold preamble in Hin. set_solver. }
    apply elem_of_app in Hin as [Hin | Hin].
    { by apply Hloop in Hin. }
    destruct Htail as [(err & _ & ->) | (resp & h & fl & _ & _ & _ & _ & Hfl & ->)].
    + set_solver.
    + destruct Hfl as [-> | ->]; set_solver.
  - intros pool Hproto Hlookup.
    destruct (routeServiceGateway P f pool (prepared P f req))
      as [[backend breq|] calls] eqn:Hgw.
    + destruct (ServeHTTP_proceed_events P f w req pool backend breq calls
                  Hproto Hlookup Hgw) as (tail & Hevs & _).
      rewrite Hevs. unfold preamble. by eexists.
    + rewrite (emitted_intro P f w req (preamble P f req calls)).
      * unfold preamble. by eexists.
      * by rewrite (ServeHTTP_rejected _ _ _ _ _ _ Hproto Hlookup Hgw).
  - intros pool backend breq calls. apply ServeHTTP_proceed.
Qed.

End StickyClaims.

(** ** The route-service gateway *)

Section RouteServiceClaims.
Context {I N : Type} `{EndpointIterator I} `{RoundTripper N}.
Variable P : Package.
Implicit Types (req : Request) (f : FastReverseProxy I) (w : World N)
  (st : LoopState I N) (evs : list Event) (e : Endpoint) (pool : Pool I).

Lemma forwardedUrlRaw_prepared f req :
  forwardedUrlRaw f (prepared P f req) = forwardedUrlRaw f req.
Proof.
  unfold forwardedUrlRaw, hostWithoutPort.
  by destruct (prepared_fields P f req) as (-> & _ & ->).
Qed.

(** The requests sent are prepared from requests that satisfy whatever
    holds of the request the loop is entered with and is kept by the
    preparation of an attempt. *)
Lemma LoopRun_sent (Q0 Q : Request -> Prop) backend n st evs st' :
  (forall r e, Q0 r -> Q0 (outbound P backend r e)) ->
  (forall r e, Q0 r -> Q (outbound P backend r e)) ->
  Q0 (loopReq st) ->
  LoopRun P backend n st evs st' ->
  Forall Q (sentRequests evs).
Proof.
  intros Hkeep Hsent Hstart Hrun. revert Hstart.
  induction Hrun as [| | | |n st e it' err n' evs st' _ _ _ _ IH]; intros Hstart;
    unfold sentRequests in *; cbn.
  - constructor.
  - constructor.
  - constructor; [by apply Hsent | constructor].
  - constructor; [by apply Hsent | constructor].
  - constructor; [by apply Hsent|]. apply IH. cbn. by apply Hkeep.
Qed.

(** The events of the loop do not depend on what the log holds. *)
Lemma loopEmitted_world n backend r it w w' :
  clearEvents w = clearEvents w' ->
  loopEmitted P n backend (loopStart r it w) = loopEmitted P n backend (loopStart r it w').
Proof.
  intros Hclear. unfold loopEmitted, loopRun, withWorld, loopStart. cbn.
  by rewrite Hclear.
Qed.

(** The requests a call sends are the requests its loop sends. *)
Lemma sentRequests_emitted f w req pool backend breq calls :
  isProtocolSupported req = true -> registry f (routeUri req) = Some pool ->
  routeServiceGateway P f pool (prepared P f req) = (Proceed backend breq, calls) ->
  sentRequests (emitted P f w req) =
  sentRequests
    (loopEmitted P maxRetries backend
       (loopStart breq
          (Endpoints pool (defaultLoadBalance f) (getStickySession P req)) w)).
Proof.
  intros Hproto Hlookup Hgw.
  destruct (ServeHTTP_proceed_events P f w req pool backend breq calls Hproto Hlookup Hgw)
    as (tail & Hevs & Htail).
  rewrite (loopEmitted_world _ _ _ _ w (emitAll (preamble P f req calls) w)) by done.
  set (st0 := loopStart _ _ _) in *.
  destruct (routeServiceGateway_no_hooks _ _ _ _ _ _ Hgw) as (_ & _ & _ & _ & _ & Hcalls).
  rewrite Hevs. unfold preamble.
  rewrite !sentRequests_app, Hcalls. cbn [sentRequests omap app].
  destruct Htail as [(err & _ & ->) | (resp & h & fl & _ & _ & _ & _ & Hfl & ->)].
  - cbn. by rewrite app_nil_r.
  - destruct Hfl as [-> | ->]; cbn; by rewrite app_nil_r.
Qed.

Lemma delRouteServiceHeaders_absent (h : Header) (k : string) :
  k ∈ routeServiceKeys P -> delRouteServiceHeaders P h !! k = None.
Proof.
  unfold routeServiceKeys, delRouteServiceHeaders, Header_Del. intros Hk.
  rewrite !lookup_delete.
  repeat (apply elem_of_cons in Hk as [-> | Hk]; [by repeat case_decide|]).
  by apply elem_of_nil in Hk.
Qed.

(** The preparation of an attempt adds no route-service header, as long as
    [setupProxyRequest] adds none and the two selection headers are not
    route-service headers. *)
Lemma outbound_withoutRouteServiceHeaders backend r e :
  (forall r', withoutRouteServiceHeaders P r' ->
              withoutRouteServiceHeaders P (setupProxyRequest P r')) ->
  (forall k, k ∈ routeServiceKeys P ->
             k ≠ CanonicalMIMEHeaderKey "X-CF-ApplicationID" /\
             k ≠ CanonicalMIMEHeaderKey (CfInstanceIdHeader P)) ->
  withoutRouteServiceHeaders P r ->
  withoutRouteServiceHeaders P (outbound P backend r e).
Proof.
  intros Hspr Hnames Hr.
  assert (Hsetup : withoutRouteServiceHeaders P (setupRequest P r e)).
  { intros k Hk. destruct (Hnames k Hk) as [Happ Hinst].
    unfold setupRequest, Header_Set. cbn [Header_ withHeader].
    rewrite !lookup_insert_ne by done. by apply Hr. }
  specialize (Hspr _ Hsetup).
  unfold outbound. intros k Hk. destruct backend; cbn; by apply Hspr.
Qed.

(** C8.  A request on a route-service pool whose signature header shows a
    prior visit.  If the validation against the forwarded URL fails, the
    only calls after the lookup are the validation and the bad-signature
    responder with the validator's error: nothing is sent and the network is
    untouched.  If it succeeds, the three route-service headers are deleted
    before the loop is entered, and no request handed to the transport holds
    any of them (given that [setupProxyRequest] adds none and that the names
    of the two selection headers are not route-service names). *)
Theorem prior_visit_is_validated_and_stripped f w req pool :
  isProtocolSupported req = true ->
  registry f (routeUri req) = Some pool ->
  RouteServiceUrl pool ≠ "" ->
  RouteServiceEnabled (routeServiceConfig f) = true ->
  let breq := prepared P f req in
  hasBeenToRouteService P (RouteServiceUrl pool)
    (Header_Get (Header_ breq) (RouteServiceSignature P)) = true ->
  (forall err,
      ValidateSignature (routeServiceConfig f) (Header_ breq) (forwardedUrlRaw f req)
        = Some err ->
      emitted P f w req =
        [ EvLookup (routeUri req);
          EvEndpoints (defaultLoadBalance f) (getStickySession P req);
          EvValidateSignature (forwardedUrlRaw f req);
          EvHandleBadSignature err ] /\
      sentRequests (emitted P f w req) = [] /\
      network (ServeHTTP P f w req) = network w) /\
  (ValidateSignature (routeServiceConfig f) (Header_ breq) (forwardedUrlRaw f req)
     = None ->
   let stripped := withHeader breq (delRouteServiceHeaders P (Header_ breq)) in
   routeServiceGateway P f pool breq =
     (Proceed true stripped, [EvValidateSignature (forwardedUrlRaw f req)]) /\
   withoutRouteServiceHeaders P stripped /\
   ((forall r, withoutRouteServiceHeaders P r ->
               withoutRouteServiceHeaders P (setupProxyRequest P r)) ->
    (forall k, k ∈ routeServiceKeys P ->
               k ≠ CanonicalMIMEHeaderKey "X-CF-ApplicationID" /\
               k ≠ CanonicalMIMEHeaderKey (CfInstanceIdHeader P)) ->
    forall r, r ∈ sentRequests (emitted P f w req) ->
              withoutRouteServiceHeaders P r)).
Proof.
  intros Hproto Hlookup Hurl Henabled breq Hvisited.
  assert (Hgw : forall res,
            ValidateSignature (routeServiceConfig f) (Header_ breq) (forwardedUrlRaw f req)
              = res ->
            routeServiceGateway P f pool breq =
            match res with
            | Some err => (Rejected, [EvValidateSignature (forwardedUrlRaw f req);
                                      EvHandleBadSignature err])
            | None => (Proceed true (withHeader breq (delRouteServiceHeaders P (Header_ breq))),
                       [EvValidateSignature (forwardedUrlRaw f req)])
            end).
  { intros res Hres. unfold routeServiceGateway.
    apply String.eqb_neq in Hurl. rewrite Hurl, Henabled. cbn [negb andb].
    rewrite Hvisited. unfold breq. rewrite forwardedUrlRaw_prepared.
    fold breq. by rewrite Hres. }
  split.
  - intros err Hinvalid. specialize (Hgw _ Hinvalid).
    pose proof (ServeHTTP_rejected P f w req pool _ Hproto Hlookup Hgw) as Hserve.
    assert (Hevs : emitted P f w req =
              [ EvLookup (routeUri req);
                EvEndpoints (defaultLoadBalance f) (getStickySession P req);
                EvValidateSignature (forwardedUrlRaw f req);
                EvHandleBadSignature err ]).
    { apply emitted_intro. by rewrite Hserve. }
    split; [done|]. split; [by rewrite Hevs|]. by rewrite Hserve.
  - intros Hvalid stripped. specialize (Hgw _ Hvalid). cbn in Hgw.
    split; [done|].
    assert (Hstripped : withoutRouteServiceHeaders P stripped).
    { intros k Hk. by apply delRouteServiceHeaders_absent. }
    split; [done|].
    intros Hspr Hnames r Hr.
    rewrite (sentRequests_emitted f w req pool true stripped _ Hproto Hlookup Hgw) in Hr.
    set (st0 := loopStart _ _ _) in *.
    pose proof (LoopRun_sent (withoutRouteServiceHeaders P) (withoutRouteServiceHeaders P)
                  true maxRetries st0 _ _
                  (fun r e => outbound_withoutRouteServiceHeaders true r e Hspr Hnames)
                  (fun r e => outbound_withoutRouteServiceHeaders true r e Hspr Hnames)
                  Hstripped (LoopRun_emitted P maxRetries true st0)) as Hall.
    rewrite Forall_forall in Hall. by apply Hall.
Qed.

(** The gateway on a first visit, when the signer succeeds. *)
Lemma routeServiceGateway_first_visit f pool req args :
  RouteServiceUrl pool ≠ "" ->
  RouteServiceEnabled (routeServiceConfig f) = true ->
  hasBeenToRouteService P (RouteServiceUrl pool)
    (Header_Get (Header_ req) (RouteServiceSignature P)) = false ->
  RouteServiceConfig_Request (routeServiceConfig f) (RouteServiceUrl pool)
    (forwardedUrlRaw f req) = inl args ->
  routeServiceGateway P f pool req =
  (Proceed false (withHeader req (setRouteServiceHeaders P (Header_ req) args)),
   [EvRouteServiceRequest (RouteServiceUrl pool) (forwardedUrlRaw f req)]).
Proof.
  intros Hurl Henabled Hfirst Hsigned. unfold routeServiceGateway.
  apply String.eqb_neq in Hurl. rewrite Hurl, Henabled. cbn [negb andb].
  by rewrite Hfirst, Hsigned.
Qed.

(** On a first visit every request handed to the transport is the result
    of [setupProxyRequest] with the request URI cleared: nothing assigns its
    destination afterwards, and the envelope's URL is not used. *)
Lemma first_visit_sent_requests f w req pool args :
  isProtocolSupported req = true ->
  registry f (routeUri req) = Some pool ->
  RouteServiceUrl pool ≠ "" ->
  RouteServiceEnabled (routeServiceConfig f) = true ->
  hasBeenToRouteService P (RouteServiceUrl pool)
    (Header_Get (Header_ (prepared P f req)) (RouteServiceSignature P)) = false ->
  RouteServiceConfig_Request (routeServiceConfig f) (RouteServiceUrl pool)
    (forwardedUrlRaw f req) = inl args ->
  forall r, r ∈ sentRequests (emitted P f w req) ->
            exists r0 e, r = withRequestURI (setupProxyRequest P (setupRequest P r0 e)) "".
Proof.
  intros Hproto Hlookup Hurl Henabled Hfirst Hsigned r Hr.
  rewrite <- (forwardedUrlRaw_prepared f req) in Hsigned.
  pose proof (routeServiceGateway_first_visit f pool _ args Hurl Henabled Hfirst Hsigned)
    as Hgw.
  rewrite (sentRequests_emitted f w req pool false _ _ Hproto Hlookup Hgw) in Hr.
  set (st0 := loopStart _ _ _) in *.
  pose proof (LoopRun_sent (fun _ => True)
                (fun r => exists r0 e,
                     r = withRequestURI (setupProxyRequest P (setupRequest P r0 e)) "")
                false maxRetries st0 _ _
                (fun _ _ _ => Logic.I)
                (fun r0 e _ => ex_intro _ r0 (ex_intro _ e eq_refl))
                Logic.I (LoopRun_emitted P maxRetries false st0)) as Hall.
  rewrite Forall_forall in Hall. by apply Hall.
Qed.

(** C1, where the code departs from it.  Two pools that differ in nothing
    but their route-service URL, both met on a first visit, the signer
    answering with envelopes that agree on the three header values: the
    requests handed to the transport are the same.  The destination of the
    outbound request therefore does not depend on the route-service URL, and
    cannot be that URL. *)
Theorem first_visit_destination_ignores_route_service_url
    f w req pool1 pool2 args1 args2 :
  isProtocolSupported req = true ->
  Endpoints pool1 = Endpoints pool2 ->
  RouteServiceEnabled (routeServiceConfig f) = true ->
  RouteServiceUrl pool1 ≠ "" ->
  RouteServiceUrl pool2 ≠ "" ->
  hasBeenToRouteService P (RouteServiceUrl pool1)
    (Header_Get (Header_ (prepared P f req)) (RouteServiceSignature P)) = false ->
  hasBeenToRouteService P (RouteServiceUrl pool2)
    (Header_Get (Header_ (prepared P f req)) (RouteServiceSignature P)) = false ->
  RouteServiceConfig_Request (routeServiceConfig f) (RouteServiceUrl pool1)
    (forwardedUrlRaw f req) = inl args1 ->
  RouteServiceConfig_Request (routeServiceConfig f) (RouteServiceUrl pool2)
    (forwardedUrlRaw f req) = inl args2 ->
  Signature args1 = Signature args2 ->
  Metadata args1 = Metadata args2 ->
  ForwardedURL args1 = ForwardedURL args2 ->
  sentRequests (emitted P (servingPool f pool1) w req) =
  sentRequests (emitted P (servingPool f pool2) w req).
Proof.
  intros Hproto Hends Henabled Hurl1 Hurl2 Hfirst1 Hfirst2 Hsigned1 Hsigned2
    Hsig Hmeta Hfwd.
  rewrite <- (forwardedUrlRaw_prepared f req) in Hsigned1, Hsigned2.
  pose proof (routeServiceGateway_first_visit (servingPool f pool1) pool1
                (prepared P f req) args1 Hurl1 Henabled Hfirst1 Hsigned1) as Hgw1.
  pose proof (routeServiceGateway_first_visit (servingPool f pool2) pool2
                (prepared P f req) args2 Hurl2 Henabled Hfirst2 Hsigned2) as Hgw2.
  rewrite (sentRequests_emitted (servingPool f pool1) w req pool1 false _ _
             Hproto eq_refl Hgw1).
  rewrite (sentRequests_emitted (servingPool f pool2) w req pool2 false _ _
             Hproto eq_refl Hgw2).
  unfold setRouteServiceHeaders. cbn [defaultLoadBalance servingPool].
  by rewrite Hends, Hsig, Hmeta, Hfwd.
Qed.

End RouteServiceClaims.

(** ** The response headers *)

Section ResponseClaims.
Context {I N : Type} `{EndpointIterator I} `{RoundTripper N}.
Variable P : Package.
Implicit Types (req : Request) (f : FastReverseProxy I) (w : World N)
  (st : LoopState I N) (evs : list Event) (e : Endpoint) (pool : Pool I)
  (h dst : Header).

(** The copy loop over entries with distinct canonical keys: a key of the
    entries ends with its values joined, any other key is as it was. *)
Lemma copyHeader_entries (l : list (string * list string)) dst (k : string) :
  NoDup l.*1 ->
  (forall k' v', (k', v') ∈ l -> CanonicalMIMEHeaderKey k' = k') ->
  copyHeader l dst !! k =
  match (list_to_map l : Header) !! k with
  | Some v => Some [Join v ","]
  | None => dst !! k
  end.
Proof.
  revert dst. induction l as [|[k0 v0] l IH]; intros dst Hdup Hcanon.
  - done.
  - apply NoDup_cons in Hdup as [Hk0 Hdup]. cbn [copyHeader foldl fst snd].
    fold (copyHeader l (Header_Set dst k0 (Join v0 ","))).
    rewrite IH; [|done|intros k' v' Hin; apply (Hcanon k' v'); by right].
    unfold Header_Set. rewrite (Hcanon k0 v0) by left.
    cbn [list_to_map foldr]. fold (list_to_map l : Header).
    destruct (decide (k0 = k)) as [->|Hne].
    + rewrite lookup_insert_eq.
      rewrite (not_elem_of_list_to_map_1 l k) by done.
      by rewrite lookup_insert_eq.
    + rewrite !(lookup_insert_ne _ k0 k) by done. done.
Qed.

(** The same for the entries of a header map, in whatever order the range
    of line 277 visits them. *)
Lemma copyHeader_lookup h dst (order : list (string * list string)) (k : string) :
  canonicalKeys h -> order ≡ₚ map_to_list h ->
  copyHeader order dst !! k =
  match h !! k with
  | Some v => Some [Join v ","]
  | None => dst !! k
  end.
Proof.
  intros Hcanon Horder.
  assert (Hdup : NoDup order.*1).
  { rewrite Horder. apply NoDup_fst_map_to_list. }
  rewrite copyHeader_entries; [|done|].
  - rewrite (list_to_map_proper order (map_to_list h)) by done.
    by rewrite list_to_map_to_list.
  - intros k' v' Hin. rewrite Horder in Hin.
    apply elem_of_map_to_list in Hin. by eapply Hcanon.
Qed.

(** What the writer's header map holds, when the status line is written,
    for a key of the response that is not hop-by-hop. *)
Lemma sentHeader_lookup f req endpoint resp w (k : string) (v : list string) :
  canonicalKeys (Resp_Header resp) ->
  Resp_Header resp !! k = Some v ->
  k ∉ HopHeaders ->
  (k = "Content-Type" -> Header_Get (Resp_Header resp) "Content-Type" ≠ "") ->
  sentHeader P f req endpoint resp w !! k = Some [Join v ","].
Proof.
  intros Hcanon Hk Hhop Hct. unfold sentHeader.
  set (w0 := traceHeaders P f req endpoint _).
  set (h := delHopHeaders (Resp_Header resp)).
  assert (Hh : h !! k = Some v).
  { unfold h. rewrite delHopHeaders_lookup. by rewrite bool_decide_eq_false_2. }
  assert (Hhcanon : canonicalKeys h).
  { intros k' v' Hk'. unfold h in Hk'. rewrite delHopHeaders_lookup in Hk'.
    case_bool_decide; [done|]. by eapply Hcanon. }
  assert (Hcopy : copyHeader (map_to_list h) (rwHeader w0) !! k = Some [Join v ","]).
  { rewrite (copyHeader_lookup h _ _ k Hhcanon) by done. by rewrite Hh. }
  assert (Hwritten : rwHeader (writeHeaders h w0) !! k = Some [Join v ","]).
  { unfold writeHeaders. cbn [rwHeader withRwHeader].
    destruct (Header_Get h "Content-Type" =? "")%string eqn:Hempty;
      cbn [rwHeader withRwHeader]; [|done].
    destruct (decide (k = "Content-Type")) as [->|Hne].
    - exfalso. apply Hct; [done|]. apply String.eqb_eq in Hempty.
      unfold Header_Get in *.
      change (CanonicalMIMEHeaderKey "Content-Type") with "Content-Type" in *.
      rewrite Hk. by rewrite Hh in Hempty.
    - by rewrite lookup_insert_ne. }
  unfold announceTrailers. case_match; [|done].
  cbn [rwHeader withRwHeader]. unfold Header_Add.
  change (CanonicalMIMEHeaderKey "Trailer") with "Trailer".
  rewrite lookup_insert_ne; [done|].
  intros <-. apply Hhop. compute_done.
Qed.

(** C10.  The copy loop of lines 277-279 gives every key of the header map
    it ranges over exactly one value in the writer's header map, the values
    of the key joined by a comma, in whatever order it visits the keys.  In
    a call: whenever the status line is written, the last attempt gave a
    response, and the header map written holds that single joined value
    for every key of the response that the loop visits, which are the keys
    left by the deletion of the hop-by-hop headers at lines 272-274 (for
    Content-Type, unless lines 281-283 find its first value empty). *)
Theorem copied_headers_are_joined_by_comma f w req :
  (forall status h,
      EvWriteHeader status h ∈ emitted P f w req ->
      exists resp,
        last (attemptResults (emitted P f w req)) = Some (inl resp) /\
        status = StatusCode resp /\
        (canonicalKeys (Resp_Header resp) ->
         forall k v,
           Resp_Header resp !! k = Some v ->
           k ∉ HopHeaders ->
           (k = "Content-Type" -> Header_Get (Resp_Header resp) "Content-Type" ≠ "") ->
           h !! k = Some [Join v ","])) /\
  (forall h dst order k v,
      canonicalKeys h -> order ≡ₚ map_to_list h -> h !! k = Some v ->
      copyHeader order dst !! k = Some [Join v ","]).
Proof.
  split.
  2:{ intros h dst order k v Hcanon Horder Hk.
      by rewrite (copyHeader_lookup h dst order k Hcanon Horder), Hk. }
  intros status h Hin.
  destruct (isProtocolSupported req) eqn:Hproto.
  2:{ rewrite (emitted_intro P f w req [EvHandleUnsupportedProtocol]) in Hin;
        [set_solver|]. by rewrite ServeHTTP_unsupported. }
  destruct (registry f (routeUri req)) as [pool|] eqn:Hlookup.
  2:{ rewrite (emitted_intro P f w req [EvLookup (routeUri req); EvHandleMissingRoute])
        in Hin; [set_solver|]. by rewrite ServeHTTP_missing. }
  destruct (routeServiceGateway P f pool (prepared P f req))
    as [[backend breq|] calls] eqn:Hgw.
  2:{ rewrite (emitted_intro P f w req (preamble P f req calls)) in Hin.
      - exfalso. revert Hgw Hin. unfold routeServiceGateway, preamble.
        repeat case_match; intros; simplify_eq; set_solver.
      - by rewrite (ServeHTTP_rejected _ _ _ _ _ _ Hproto Hlookup Hgw). }
  destruct (ServeHTTP_proceed_events P f w req pool backend breq calls Hproto Hlookup Hgw)
    as (tail & Hevs & Htail).
  set (st0 := loopStart _ _ _) in *.
  pose proof (LoopRun_attempt_events P _ _ _ _ _
                (LoopRun_emitted P maxRetries backend st0)) as Hloop.
  rewrite Forall_forall in Hloop.
  destruct (routeServiceGateway_calls _ _ _ _ _ _ Hgw) as (_ & _ & Ha & _).
  assert (Hcalls : EvWriteHeader status h ∉ calls).
  { revert Hgw. unfold routeServiceGateway.
    repeat case_match; intros; simplify_eq; set_solver. }
  rewrite Hevs in Hin.
  apply elem_of_app in Hin as [Hin | Hin].
  { unfold preamble in Hin. set_solver. }
  apply elem_of_app in Hin as [Hin | Hin].
  { by apply Hloop in Hin. }
  destruct Htail as [(err & _ & ->) | (resp & h' & fl & Hh' & _ & _ & Hlast & Hfl & ->)].
  { set_solver. }
  assert (status = StatusCode resp /\ h = h') as [-> ->].
  { destruct Hfl as [-> | ->]; cbn in Hin; set_solver. }
  exists resp. split; [|split; [done|]].
  - rewrite Hevs. unfold preamble.
    assert (Htl : attemptResults
              ([EvWriteHeader (StatusCode resp) h'] ++ fl ++
               [EvCopyResponse (Body resp); EvBodyClose;
                EvNextHandler (loopReq (retryLoop P maxRetries backend st0))]) = [])
      by (by destruct Hfl as [-> | ->]).
    rewrite (attemptResults_app (_ ++ calls)), (attemptResults_app _ calls),
      (attemptResults_app (loopEmitted _ _ _ _)), Ha, Htl.
    change (attemptResults [EvLookup _; EvEndpoints _ _]) with (@nil (Response + error)).
    by rewrite !app_nil_r.
  - intros Hcanon k v Hk Hhop Hct. rewrite Hh'. by apply sentHeader_lookup.
Qed.

(** The Upgrade header is deleted at lines 104-106, before lines 156-164
    read it: neither tunnel hand-off is ever reached. *)
Lemma upgrade_hand_off_is_never_reached f w req :
  (EvHandleWebSocketRequest ∉ emitted P f w req) /\
  (EvHandleTcpRequest ∉ emitted P f w req).
Proof.
  assert (Hno : forall ev, ev = EvHandleWebSocketRequest \/ ev = EvHandleTcpRequest ->
                           ev ∉ emitted P f w req).
  { intros ev Hev Hin.
    destruct (isProtocolSupported req) eqn:Hproto.
    2:{ rewrite (emitted_intro P f w req [EvHandleUnsupportedProtocol]) in Hin;
          [set_solver|]. by rewrite ServeHTTP_unsupported. }
    destruct (registry f (routeUri req)) as [pool|] eqn:Hlookup.
    2:{ rewrite (emitted_intro P f w req [EvLookup (routeUri req); EvHandleMissingRoute])
          in Hin; [set_solver|]. by rewrite ServeHTTP_missing. }
    assert (Hcalls : forall gateway calls,
               routeServiceGateway P f pool (prepared P f req) = (gateway, calls) ->
               ev ∉ calls).
    { intros gateway calls. unfold routeServiceGateway.
      repeat case_match; intros; simplify_eq; set_solver. }
    destruct (routeServiceGateway P f pool (prepared P f req))
      as [[backend breq|] calls] eqn:Hgw.
    2:{ rewrite (emitted_intro P f w req (preamble P f req calls)) in Hin.
        - specialize (Hcalls _ _ eq_refl). unfold preamble in Hin. set_solver.
        - by rewrite (ServeHTTP_rejected _ _ _ _ _ _ Hproto Hlookup Hgw). }
    destruct (ServeHTTP_proceed_events P f w req pool backend breq calls Hproto Hlookup Hgw)
      as (tail & Hevs & Htail).
    set (st0 := loopStart _ _ _) in *.
    pose proof (LoopRun_attempt_events P _ _ _ _ _
                  (LoopRun_emitted P maxRetries backend st0)) as Hloop.
    rewrite Forall_forall in Hloop.
    specialize (Hcalls _ _ eq_refl).
    rewrite Hevs in Hin.
    apply elem_of_app in Hin as [Hin | Hin].
    { unfold preamble in Hin. set_solver. }
    apply elem_of_app in Hin as [Hin | Hin].
    { apply Hloop in Hin. by destruct Hev as [-> | ->]. }
    destruct Htail as [(err & _ & ->) | (resp & h' & fl & _ & _ & _ & _ & Hfl & ->)].
    - set_solver.
    - destruct Hfl as [-> | ->]; set_solver. }
  split; apply Hno; auto.
Qed.

End ResponseClaims.

(** ** The theorems at work on the concrete deployment *)

Import Sample.

Lemma unsupported_protocol_is_rejected_witness :
  (ProtoMajor (http2 []) ≠ 1 \/
   (ProtoMinor (http2 []) ≠ 0 /\ ProtoMinor (http2 []) ≠ 1))%Z /\
  (ServeHTTP pkg (proxy [E1] "" (config true true true)) world0 (http2 []) =
     emit EvHandleUnsupportedProtocol world0 /\
   emitted pkg (proxy [E1] "" (config true true true)) world0 (http2 []) =
     [EvHandleUnsupportedProtocol]).
Proof.
  split; [left; discriminate|].
  apply unsupported_protocol_is_rejected. left. discriminate.
Defined.

Lemma exhausted_iterator_witness :
  let f := proxy [] "" (config true true true) in
  let req := get [] in
  isProtocolSupported req = true /\
  registry f (routeUri req) = Some (pool [] "") /\
  routeServiceGateway pkg f (pool [] "") (prepared pkg f req) =
    (Proceed true (prepared pkg f req), []) /\
  Next (Endpoints (pool [] "") (defaultLoadBalance f) (getStickySession pkg req)) =
    (None, []) /\
  let evs := emitted pkg f world0 req in
  evs = preamble pkg f req [] ++
        [ EvAfterNext None;
          EvHandleBadGateway NoEndpointsAvailable (prepared pkg f req);
          EvWrite "Exceeded max retries: Timed out connecting to backends." ] /\
  count isDo evs = 0 /\ count isPreRequest evs = 0 /\ count isPostRequest evs = 0 /\
  network (ServeHTTP pkg f world0 req) = network world0.
Proof.
  cbn zeta.
  split; [reflexivity|]. split; [reflexivity|]. split; [reflexivity|].
  split; [reflexivity|].
  apply (exhausted_iterator_is_reported_through_bad_gateway pkg
           (proxy [] "" (config true true true)) world0 (get []) (pool [] "")
           true _ [] []); reflexivity.
Defined.

(** C3 as the spec words it fails: with an empty pool the failure reaches
    the client through the bad-gateway responder. *)
Lemma exhausted_iterator_counterexample :
  let f := proxy [] "" (config true true true) in
  let evs := emitted pkg f world0 (get []) in
  Next (Endpoints (pool [] "") (defaultLoadBalance f) (getStickySession pkg (get []))) =
    (None, []) /\
  ~ (count isDo evs = 0 /\ count isBadGateway evs = 0).
Proof.
  cbn zeta. split; [reflexivity|].
  intros [_ Hbad]. vm_compute in Hbad. discriminate.
Qed.

Lemma two_dial_errors_then_success_witness :
  let f := proxy [E1; E2; E3] "" (config true true true) in
  let req := get [] in
  let breq := prepared pkg f req in
  let r1 := outbound pkg true breq E1 in
  let r2 := outbound pkg true r1 E2 in
  let r3 := outbound pkg true r2 E3 in
  let evs := emitted pkg f world0 req in
  (isProtocolSupported req = true /\
   registry f (routeUri req) = Some (pool [E1; E2; E3] "") /\
   routeServiceGateway pkg f (pool [E1; E2; E3] "") breq = (Proceed true breq, []) /\
   Next [E1; E2; E3] = (Some E1, [E2; E3]) /\
   Do net r1 = (inr dialError, net) /\ Contains (Error pkg dialError) "dial" = true /\
   Next [E2; E3] = (Some E2, [E3]) /\
   Do net r2 = (inr dialError, net) /\
   Next [E3] = (Some E3, []) /\
   Do net r3 = (inl (ok "10.0.0.3:8080"), net)) /\
  attemptResults evs = [inr dialError; inr dialError; inl (ok "10.0.0.3:8080")] /\
  count isDo evs = 3 /\ count isPostRequest evs = 3 /\ count isAfterNext evs = 3.
Proof.
  cbn zeta. split.
  { repeat split; reflexivity. }
  pose proof (two_dial_errors_then_success pkg
                (proxy [E1; E2; E3] "" (config true true true)) world0 (get [])
                (pool [E1; E2; E3] "") true
                (prepared pkg (proxy [E1; E2; E3] "" (config true true true)) (get []))
                [] E1 E2 E3 [E2; E3] [E3] [] dialError dialError
                (ok "10.0.0.3:8080") net net net
                eq_refl eq_refl eq_refl eq_refl eq_refl eq_refl eq_refl eq_refl
                eq_refl eq_refl eq_refl) as Hthm.
  cbn zeta in Hthm.
  destruct Hthm as (Hres & _ & Hdo & Hpost & _ & Hafter & _).
  repeat split; assumption.
Defined.

Lemma retry_is_bounded_and_only_after_dial_errors_witness :
  let f := proxy [E1; E2; E3] "" (config true true true) in
  let rs := attemptResults (emitted pkg f world0 (get [])) in
  rs !! 0 = Some (inr dialError) /\ 1 < length rs /\
  length rs <= 3 /\
  exists err, inr dialError = @inr Response error err /\
              Contains (Error pkg err) "dial" = true.
Proof.
  cbn zeta.
  destruct (retry_is_bounded_and_only_after_dial_errors pkg
              (I := list Endpoint) (N := StaticNet)) as [_ Hcall].
  destruct (Hcall (proxy [E1; E2; E3] "" (config true true true)) world0 (get []))
    as (Hbound & Hretried & _).
  assert (Hfirst : attemptResults
            (emitted pkg (proxy [E1; E2; E3] "" (config true true true)) world0 (get []))
            !! 0 = Some (inr dialError)) by (vm_compute; reflexivity).
  assert (Hlen : 1 < length (attemptResults
            (emitted pkg (proxy [E1; E2; E3] "" (config true true true)) world0 (get []))))
    by (vm_compute; lia).
  split; [exact Hfirst|]. split; [exact Hlen|]. split; [exact Hbound|].
  exact (Hretried 0 (inr dialError) Hfirst Hlen).
Defined.

Lemma sticky_session_is_the_affinity_cookie_witness :
  Request_Cookie pkg sticky (StickyCookieKey pkg) = Some {| Name := "JSESSIONID"; Value := "x" |} /\
  Request_Cookie pkg sticky (VcapCookieId pkg) =
    Some {| Name := "__VCAP_ID__"; Value := "abc123" |} /\
  getStickySession pkg sticky = "abc123".
Proof.
  split; [reflexivity|]. split; [reflexivity|].
  destruct (sticky_session_is_the_affinity_cookie pkg
              (proxy [E3] "" (config true true true)) world0 sticky) as [Hboth _].
  exact (Hboth {| Name := "JSESSIONID"; Value := "x" |}
               {| Name := "__VCAP_ID__"; Value := "abc123" |} eq_refl eq_refl).
Defined.

Lemma prior_visit_is_validated_and_stripped_witness :
  let f := proxy [E3] "https://rs.example.com" (config true true true) in
  (isProtocolSupported signed = true /\
   registry f (routeUri signed) = Some (pool [E3] "https://rs.example.com") /\
   RouteServiceUrl (pool [E3] "https://rs.example.com") ≠ "" /\
   RouteServiceEnabled (routeServiceConfig f) = true /\
   hasBeenToRouteService pkg "https://rs.example.com"
     (Header_Get (Header_ (prepared pkg f signed)) (RouteServiceSignature pkg)) = true /\
   ValidateSignature (routeServiceConfig f) (Header_ (prepared pkg f signed))
     (forwardedUrlRaw f signed) = None) /\
  Forall (withoutRouteServiceHeaders pkg) (sentRequests (emitted pkg f world0 signed)).
Proof.
  cbn zeta. split.
  { repeat split; try reflexivity. discriminate. }
  destruct (prior_visit_is_validated_and_stripped pkg
              (proxy [E3] "https://rs.example.com" (config true true true))
              world0 signed (pool [E3] "https://rs.example.com")
              eq_refl eq_refl ltac:(discriminate) eq_refl eq_refl) as [_ Hvalid].
  destruct (Hvalid eq_refl) as (_ & _ & Hsent).
  apply Forall_forall. apply Hsent.
  - intros r Hr k Hk. exact (Hr k Hk).
  - intros k Hk. unfold routeServiceKeys in Hk. cbn in Hk.
    repeat (apply elem_of_cons in Hk as [-> | Hk]; [split; discriminate|]).
    by apply elem_of_nil in Hk.
Defined.

Lemma first_visit_destination_ignores_route_service_url_witness :
  let f := proxy [E3] "" (config true true true) in
  let pool1 := pool [E3] "https://rs.example.com" in
  let pool2 := pool [E3] "https://other.example.net" in
  (isProtocolSupported (get []) = true /\
   Endpoints pool1 = Endpoints pool2 /\
   RouteServiceUrl pool1 ≠ "" /\ RouteServiceUrl pool2 ≠ "" /\
   RouteServiceConfig_Request (routeServiceConfig f) (RouteServiceUrl pool1)
     (forwardedUrlRaw f (get [])) = inl (envelope "https://rs.example.com") /\
   RouteServiceConfig_Request (routeServiceConfig f) (RouteServiceUrl pool2)
     (forwardedUrlRaw f (get [])) = inl (envelope "https://other.example.net")) /\
  sentRequests (emitted pkg (servingPool f pool1) world0 (get [])) =
  sentRequests (emitted pkg (servingPool f pool2) world0 (get [])).
Proof.
  cbn zeta. split.
  { repeat split; try reflexivity; discriminate. }
  apply (first_visit_destination_ignores_route_service_url pkg
           (proxy [E3] "" (config true true true)) world0 (get [])
           (pool [E3] "https://rs.example.com") (pool [E3] "https://other.example.net")
           (envelope "https://rs.example.com") (envelope "https://other.example.net"));
    try reflexivity; discriminate.
Defined.

(** C1 at a concrete first visit: the three headers are on the request,
    and the request goes to the host the client named, not to the route
    service at rs.example.com. *)
Example first_visit_is_not_sent_to_the_route_service :
  let f := proxy [E3] "https://rs.example.com" (config true true true) in
  map (fun r => (URL_Host (Url r),
                 Header_Get (Header_ r) (RouteServiceSignature pkg),
                 Header_Get (Header_ r) (RouteServiceMetadata pkg),
                 Header_Get (Header_ r) (RouteServiceForwardedURL pkg)))
      (sentRequests (emitted pkg f world0 (get []))) =
  [("app.example.com:80", "sig", "meta", "https://app.example.com/index")].
Proof. vm_compute. reflexivity. Qed.

(** C2 at a concrete request: [Upgrade: WebSocket] is recognised on the
    request as the client sent it, but not on the request the dispatcher
    classifies; the tunnel is not called, and the request is forwarded by
    the retry loop and relayed like plain HTTP. *)
Theorem websocket_upgrade_is_served_by_the_retry_loop :
  let f := proxy [E3] "" (config true true true) in
  let evs := emitted pkg f world0 websocket in
  isWebSocketUpgrade websocket = true /\
  isWebSocketUpgrade (prepared pkg f websocket) = false /\
  (EvHandleWebSocketRequest ∉ evs) /\
  count isDo evs = 1 /\ count isCopyResponse evs = 1 /\ count isNextHandler evs = 1.
Proof.
  cbn zeta. split; [reflexivity|]. split; [reflexivity|].
  split; [apply upgrade_hand_off_is_never_reached|].
  vm_compute. repeat split; reflexivity.
Qed.

(** C8 at a request whose signature does not validate. *)
Example bad_signature_is_rejected :
  let f := proxy [E3] "https://rs.example.com" (config true false true) in
  emitted pkg f world0 signed =
  [ EvLookup "app.example.com/index"; EvEndpoints "round-robin" "";
    EvValidateSignature "https://app.example.com/index";
    EvHandleBadSignature (Err "signature expired") ].
Proof. vm_compute. reflexivity. Qed.

Lemma copied_headers_are_joined_by_comma_witness :
  let h := delHopHeaders (Resp_Header (ok "")) in
  h !! "Set-Cookie" = Some ["a=1"; "b=2"] /\
  copyHeader (map_to_list h) ∅ !! "Set-Cookie" = Some ["a=1,b=2"].
Proof.
  cbn zeta. split; [reflexivity|].
  destruct (copied_headers_are_joined_by_comma pkg
              (proxy [E3] "" (config true true true)) world0 (get [])) as [_ Hloop].
  apply (Hloop (delHopHeaders (Resp_Header (ok ""))) ∅ _ "Set-Cookie" ["a=1"; "b=2"]);
    [|reflexivity|reflexivity].
  intros k v Hk. apply elem_of_map_to_list in Hk.
  vm_compute in Hk.
  repeat (apply elem_of_cons in Hk as [Hk | Hk]; [by simplify_eq|]).
  by apply elem_of_nil in Hk.
Defined.

(** The response of the sample backend holds two Set-Cookie values and two
    Keep-Alive values: the first are written joined, the second, being
    hop-by-hop, are not written. *)
Example hop_by_hop_headers_are_not_copied :
  let f := proxy [E3] "" (config true true true) in
  let evs := emitted pkg f world0 (get []) in
  attemptResults evs = [inl (ok "10.0.0.3:8080")] /\
  Resp_Header (ok "10.0.0.3:8080") !! "Keep-Alive" = Some ["timeout=5"; "max=100"] /\
  (fun h : Header => (h !! "Set-Cookie", h !! "Keep-Alive")) <$> writtenHeaders evs
    = [(Some ["a=1,b=2"], None)].
Proof.
  cbn zeta. split; [vm_compute; reflexivity|]. split; [reflexivity|].
  vm_compute. reflexivity.
Qed.
